(** * A shallow embedding of the PERSONAL-AI-ASSITANT backend services

    The Python services (app/services, app/rag, app/prompts, app/api/routes)
    are modelled in a small state-and-exception monad.  The state [World]
    holds what the code talks to: the prompt files on disk, the scripted
    replies of the remote chat-completion and embedding APIs, the Qdrant
    server (its collections and the requests it received), the module-level
    singletons and the sleeps of the retry decorator.  A Python exception is
    a value of [exn]; raising keeps the side effects done so far. *)

From Stdlib Require Import String Ascii List Bool ZArith QArith Lia Sorted.
Import ListNotations.
Open Scope string_scope.
Set Warnings "-register-all".

(** ** Python values and exceptions *)

(** Values produced by [json.loads] and returned as response dicts.  A
    Python dict keeps insertion order, so it is an association list. *)
Inductive pyval : Type :=
  | PNone
  | PBool (b : bool)
  | PInt (z : Z)
  | PFloat (q : Q)
  | PStr (s : string)
  | PList (l : list pyval)
  | PDict (d : list (string * pyval)).

Inductive exn : Type :=
  | FileNotFoundError
  | OSError                 (** any other failure of reading a file *)
  | JSONDecodeError
  | TypeError
  | AttributeError
  | IndexError
  | APIError                (** openai / httpx transport or status error *)
  | QdrantError             (** qdrant_client UnexpectedResponse and the like *)
  | EmbeddingError
  | LLMError
  | VectorStoreError
  | ConfigurationError
  | RetryError (last : exn) (** tenacity.RetryError, wrapping the last attempt *).

(** [isinstance(e, RAGException)] *)
Definition is_rag_exception (e : exn) : bool :=
  match e with
  | EmbeddingError | LLMError | VectorStoreError | ConfigurationError => true
  | _ => false
  end.

Inductive outcome (A : Type) : Type :=
  | Ok (a : A)
  | Raise (e : exn).
Arguments Ok {A} a.
Arguments Raise {A} e.

(** [d[k]] lookup (first binding) and [d[k] = v] update of a dict. *)
Fixpoint dict_get {V} (d : list (string * V)) (k : string) : option V :=
  match d with
  | [] => None
  | (k', v) :: d' => if String.eqb k k' then Some v else dict_get d' k
  end.

Fixpoint dict_set {V} (d : list (string * V)) (k : string) (v : V)
  : list (string * V) :=
  match d with
  | [] => [(k, v)]
  | (k', v') :: d' =>
      if String.eqb k k' then (k', v) :: d' else (k', v') :: dict_set d' k v
  end.

(** [obj[k] = v] on an arbitrary Python value: only a dict supports item
    assignment with a string key; a list, number, string, bool or None
    raises TypeError. *)
Definition py_setitem (obj : pyval) (k : string) (v : pyval) : outcome pyval :=
  match obj with
  | PDict d => Ok (PDict (dict_set d k v))
  | _ => Raise TypeError
  end.

(** [obj.get(k, default)]: only a dict has [.get]. *)
Definition py_get (obj : pyval) (k : string) (default : pyval) : outcome pyval :=
  match obj with
  | PDict d => match dict_get d k with Some v => Ok v | None => Ok default end
  | _ => Raise AttributeError
  end.

(** [str.replace(old, new)] for a non-empty [old]: left to right,
    non-overlapping. *)
Fixpoint str_replace_fuel (fuel : nat) (s old new : string) : string :=
  match fuel with
  | O => s
  | S fuel' =>
      match s with
      | EmptyString => EmptyString
      | String c s' =>
          if String.prefix old s
          then new ++ str_replace_fuel fuel'
                        (substring (String.length old)
                           (String.length s - String.length old) s) old new
          else String c (str_replace_fuel fuel' s' old new)
      end
  end.

Definition str_replace (s old new : string) : string :=
  str_replace_fuel (S (String.length s)) s old new.

(** Python truthiness defaulting [x or default] for [int | None] and
    [float | None] arguments. *)
Definition or_int (x : option Z) (default : Z) : Z :=
  match x with
  | Some v => if Z.eqb v 0 then default else v
  | None => default
  end.

Definition or_float (x : option Q) (default : Q) : Q :=
  match x with
  | Some v => if Qeq_bool v 0 then default else v
  | None => default
  end.

(** ** Configuration (app/core/config.py) *)

Record Settings := {
  groq_model : string;
  voyage_api_key : string;
  voyage_embedding_model : string;
  voyage_embedding_dim : Z;
  qdrant_collection_name : string;
  rag_top_k : Z;
  rag_score_threshold : Q;
  llm_temperature : Q;
  llm_max_tokens : Z
}.

(** The field defaults of [Settings] (API key taken from the environment). *)
Definition default_settings : Settings := {|
  groq_model := "llama-3.3-70b-versatile";
  voyage_api_key := "vk";
  voyage_embedding_model := "voyage-4-large";
  voyage_embedding_dim := 1024;
  qdrant_collection_name := "ideas";
  rag_top_k := 5;
  rag_score_threshold := 7 # 10;
  llm_temperature := 3 # 10;
  llm_max_tokens := 1024
|}.

Definition active_embedding_dim (s : Settings) : Z := voyage_embedding_dim s.

(** ** The world the services run against *)

(** One request of [client.chat.completions.create]. *)
Record ChatRequest := {
  cr_model : string;
  cr_messages : list (string * string);   (** (role, content) *)
  cr_temperature : Q;
  cr_max_tokens : Z;
  cr_response_format : option (list (string * string))
}.

Inductive Distance := Cosine | Dot | Euclid.

Record QPoint := {
  qp_id : string;
  qp_vector : list Q;
  qp_payload : list (string * pyval)
}.

Record QCollection := {
  qc_name : string;
  qc_size : Z;
  qc_distance : Distance;
  qc_points : list QPoint
}.

(** Requests received by the Qdrant server, newest first. *)
Inductive QEvent :=
  | QGetCollections
  | QCreateCollection (name : string) (size : Z) (dist : Distance)
  | QUpsert (name : string) (ids : list string)
  | QQueryPoints (name : string) (limit : Z) (threshold : Q)
  | QScroll (name : string) (limit : Z)
  | QDelete (name : string) (ids : list string)
  | QGetCollection (name : string).

(** A [QdrantVectorStore] object: its collection name and dimension. *)
Record VectorStore := {
  vs_collection : string;
  vs_dim : Z
}.

Record World := {
  w_settings : Settings;                        (** get_settings() *)
  w_files : list (string * option string);      (** None: present, unreadable *)
  w_chat : list (outcome string);               (** replies of the chat API *)
  w_chat_log : list ChatRequest;                (** requests sent, newest first *)
  w_voyage : list (outcome (list (list Q)));    (** replies of the embedding API *)
  w_sleeps : list Z;                            (** tenacity sleeps, newest first *)
  w_qdrant_up : bool;
  w_collections : list QCollection;
  w_q_log : list QEvent;
  w_vector_store : option VectorStore;          (** retriever._vector_store *)
  w_uuid : nat;                                 (** source of uuid.uuid4() *)
  w_now : string                                (** datetime.now(...).isoformat() *)
}.

Definition mkWorld s f c cl v sl up cs ql vs u n : World :=
  {| w_settings := s; w_files := f; w_chat := c; w_chat_log := cl;
     w_voyage := v; w_sleeps := sl; w_qdrant_up := up; w_collections := cs;
     w_q_log := ql; w_vector_store := vs; w_uuid := u; w_now := n |}.

Definition set_chat (w : World) c cl : World :=
  mkWorld (w_settings w) (w_files w) c cl (w_voyage w) (w_sleeps w)
    (w_qdrant_up w) (w_collections w) (w_q_log w) (w_vector_store w) (w_uuid w) (w_now w).
Definition set_voyage (w : World) v : World :=
  mkWorld (w_settings w) (w_files w) (w_chat w) (w_chat_log w) v (w_sleeps w)
    (w_qdrant_up w) (w_collections w) (w_q_log w) (w_vector_store w) (w_uuid w) (w_now w).
Definition set_sleeps (w : World) sl : World :=
  mkWorld (w_settings w) (w_files w) (w_chat w) (w_chat_log w) (w_voyage w) sl
    (w_qdrant_up w) (w_collections w) (w_q_log w) (w_vector_store w) (w_uuid w) (w_now w).
Definition set_qdrant (w : World) cs ql : World :=
  mkWorld (w_settings w) (w_files w) (w_chat w) (w_chat_log w) (w_voyage w) (w_sleeps w)
    (w_qdrant_up w) cs ql (w_vector_store w) (w_uuid w) (w_now w).
Definition set_vector_store (w : World) vs : World :=
  mkWorld (w_settings w) (w_files w) (w_chat w) (w_chat_log w) (w_voyage w) (w_sleeps w)
    (w_qdrant_up w) (w_collections w) (w_q_log w) vs (w_uuid w) (w_now w).
Definition set_uuid (w : World) u : World :=
  mkWorld (w_settings w) (w_files w) (w_chat w) (w_chat_log w) (w_voyage w) (w_sleeps w)
    (w_qdrant_up w) (w_collections w) (w_q_log w) (w_vector_store w) u (w_now w).

(** ** The state-and-exception monad *)

Definition M (A : Type) : Type := World -> outcome A * World.

Definition ret {A} (a : A) : M A := fun w => (Ok a, w).
Definition bind {A B} (m : M A) (k : A -> M B) : M B :=
  fun w => match m w with
           | (Ok a, w') => k a w'
           | (Raise e, w') => (Raise e, w')
           end.
Definition raise {A} (e : exn) : M A := fun w => (Raise e, w).
(** [try: m except ...: h(e)] *)
Definition catch {A} (m : M A) (h : exn -> M A) : M A :=
  fun w => match m w with
           | (Raise e, w') => h e w'
           | r => r
           end.
Definition lift {A} (o : outcome A) : M A := fun w => (o, w).
Definition get_settings : M Settings := fun w => (Ok (w_settings w), w).

Notation "x <- m ;; k" := (bind m (fun x => k))
  (at level 61, m at next level, right associativity).
Notation "m ;;; k" := (bind m (fun _ : unit => k))
  (at level 61, right associativity).

(** [Path(p).read_text()] / [open(p).read()] *)
Definition read_text (path : string) : M string :=
  fun w => match dict_get (w_files w) path with
           | Some (Some c) => (Ok c, w)
           | Some None => (Raise OSError, w)
           | None => (Raise FileNotFoundError, w)
           end.

(** ** tenacity: [@retry(stop=stop_after_attempt(n), wait=wait_exponential(min=1, max=10))]

    After a failed attempt the stop condition is checked first: once
    [attempt_number >= n] tenacity raises [RetryError] (reraise is not
    set); otherwise it sleeps [max(min, min(2^(attempt-1), max))] seconds
    and tries again.  Every exception is retried. *)
Definition wait_exponential (wmin wmax : Z) (attempt : nat) : Z :=
  Z.max wmin (Z.min (2 ^ (Z.of_nat attempt - 1)) wmax).

Fixpoint retry_from {A} (f : M A) (attempt left : nat) : M A :=
  fun w => match f w with
           | (Ok a, w') => (Ok a, w')
           | (Raise e, w') =>
               match left with
               | O => (Raise (RetryError e), w')
               | S left' =>
                   retry_from f (S attempt) left'
                     (set_sleeps w' (wait_exponential 1 10 attempt :: w_sleeps w'))
               end
           end.

Definition retry_stop_after_attempt {A} (n : nat) (f : M A) : M A :=
  retry_from f 1 (n - 1).

(** ** app/services/llm_service.py *)

(** [client.chat.completions.create(...)]: the call is recorded and the
    next scripted reply is the content of [choices[0].message].  One entry
    of [w_chat_log] is one [create] call; the OpenAI client's own HTTP
    retries (max_retries=2 by default) happen inside it, and a reply of
    [w_chat] is the outcome of the whole call. *)
Definition chat_completions_create (req : ChatRequest) : M string :=
  fun w => match w_chat w with
           | [] => (Raise APIError, set_chat w [] (req :: w_chat_log w))
           | r :: rest => (r, set_chat w rest (req :: w_chat_log w))
           end.

Definition newline : string := String (ascii_of_nat 10) EmptyString.

Fixpoint str_join (sep : string) (l : list string) : string :=
  match l with
  | [] => EmptyString
  | [x] => x
  | x :: l' => x ++ sep ++ str_join sep l'
  end.

(** Undecorated body of [run_llm]. *)
Definition run_llm_body (system_prompt user_input : string) (temperature : option Q)
  : M string :=
  settings <- get_settings ;;
  catch
    (chat_completions_create {|
       cr_model := groq_model settings;
       cr_messages := [("system", system_prompt); ("user", user_input)];
       cr_temperature := or_float temperature (llm_temperature settings);
       cr_max_tokens := llm_max_tokens settings;
       cr_response_format := None |})
    (fun _ => raise LLMError).

Definition run_llm (system_prompt user_input : string) (temperature : option Q) : M string :=
  retry_stop_after_attempt 3 (run_llm_body system_prompt user_input temperature).

Definition context_block (context : list string) : string :=
  newline ++ newline ++ "---" ++ newline ++ "**Relevant Context:**" ++ newline
  ++ str_join newline (map (fun c => "- " ++ c) context).

Definition run_llm_with_context_body (system_prompt user_input : string)
  (context : option (list string)) (temperature : option Q) : M string :=
  let enhanced_prompt :=
    match context with
    | Some ((_ :: _) as ctx) => system_prompt ++ context_block ctx
    | _ => system_prompt
    end in
  run_llm enhanced_prompt user_input temperature.

Definition run_llm_with_context (system_prompt user_input : string)
  (context : option (list string)) (temperature : option Q) : M string :=
  retry_stop_after_attempt 3
    (run_llm_with_context_body system_prompt user_input context temperature).

(** [run_llm_structured] carries no retry decorator.  [response_format]
    is sent as the JSON-object mode only when the argument is a non-empty
    dict. *)
Definition run_llm_structured (system_prompt user_input : string)
  (response_format : option (list (string * pyval))) : M string :=
  settings <- get_settings ;;
  catch
    (chat_completions_create {|
       cr_model := groq_model settings;
       cr_messages := [("system", system_prompt); ("user", user_input)];
       cr_temperature := 1 # 10;
       cr_max_tokens := llm_max_tokens settings;
       cr_response_format :=
         match response_format with
         | Some (_ :: _) => Some [("type", "json_object")]
         | _ => None
         end |})
    (fun _ => raise LLMError).

(** ** The Qdrant server, as seen through [qdrant_client.QdrantClient]

    Every client call is recorded in [w_q_log]; a call fails with
    [QdrantError] when the server is unreachable or the collection it
    names does not exist.  Vectors are stored normalised, so the cosine
    score is the dot product. *)

Definition log_q (ev : QEvent) (w : World) : World :=
  set_qdrant w (w_collections w) (ev :: w_q_log w).

Fixpoint find_collection (name : string) (cs : list QCollection) : option QCollection :=
  match cs with
  | [] => None
  | c :: cs' => if String.eqb (qc_name c) name then Some c else find_collection name cs'
  end.

Definition with_points (c : QCollection) (ps : list QPoint) : QCollection :=
  {| qc_name := qc_name c; qc_size := qc_size c; qc_distance := qc_distance c;
     qc_points := ps |}.

Fixpoint update_collection (name : string) (f : list QPoint -> list QPoint)
  (cs : list QCollection) : list QCollection :=
  match cs with
  | [] => []
  | c :: cs' =>
      if String.eqb (qc_name c) name then with_points c (f (qc_points c)) :: cs'
      else c :: update_collection name f cs'
  end.

Definition client_get_collections : M (list string) :=
  fun w => let w' := log_q QGetCollections w in
           if w_qdrant_up w then (Ok (map qc_name (w_collections w)), w')
           else (Raise QdrantError, w').

Definition client_create_collection (name : string) (size : Z) (dist : Distance) : M unit :=
  fun w => let w' := log_q (QCreateCollection name size dist) w in
           if negb (w_qdrant_up w) then (Raise QdrantError, w')
           else match find_collection name (w_collections w) with
                | Some _ => (Raise QdrantError, w')
                | None =>
                    (Ok tt, set_qdrant w'
                              (w_collections w ++
                               [{| qc_name := name; qc_size := size;
                                   qc_distance := dist; qc_points := [] |}])
                              (w_q_log w'))
                end.

(** Runs [k] on the named collection of a reachable server. *)
Definition on_collection {A} (ev : QEvent) (name : string)
  (k : QCollection -> World -> outcome A * World) : M A :=
  fun w => let w' := log_q ev w in
           if negb (w_qdrant_up w) then (Raise QdrantError, w')
           else match find_collection name (w_collections w) with
                | None => (Raise QdrantError, w')
                | Some c => k c w'
                end.

Definition upsert_point (p : QPoint) (ps : list QPoint) : list QPoint :=
  if existsb (fun q => String.eqb (qp_id q) (qp_id p)) ps
  then map (fun q => if String.eqb (qp_id q) (qp_id p) then p else q) ps
  else ps ++ [p].

Definition client_upsert (name : string) (points : list QPoint) : M unit :=
  on_collection (QUpsert name (map qp_id points)) name
    (fun _ w => (Ok tt, set_qdrant w
                          (update_collection name
                             (fun ps => fold_left (fun acc p => upsert_point p acc) points ps)
                             (w_collections w))
                          (w_q_log w))).

Fixpoint dot (u v : list Q) : Q :=
  match u, v with
  | x :: u', y :: v' => x * y + dot u' v'
  | _, _ => 0
  end.

(** Insertion by descending score; ties keep their storage order. *)
Fixpoint insert_by_score (h : QPoint * Q) (l : list (QPoint * Q)) : list (QPoint * Q) :=
  match l with
  | [] => [h]
  | h' :: l' => if negb (Qle_bool (snd h) (snd h')) then h :: l else h' :: insert_by_score h l'
  end.

Definition sort_by_score (l : list (QPoint * Q)) : list (QPoint * Q) :=
  fold_right insert_by_score [] l.

(** [query_points(collection, query, limit, score_threshold)]: hits with
    score at least the threshold, best first, at most [limit] of them. *)
Definition client_query_points (name : string) (query : list Q) (limit : Z) (threshold : Q)
  : M (list (QPoint * Q)) :=
  on_collection (QQueryPoints name limit threshold) name
    (fun c w =>
       let scored := map (fun p => (p, dot (qp_vector p) query)) (qc_points c) in
       let kept := filter (fun h => Qle_bool threshold (snd h)) scored in
       (Ok (firstn (Z.to_nat limit) (sort_by_score kept)), w)).

Definition client_scroll (name : string) (limit : Z) : M (list QPoint) :=
  on_collection (QScroll name limit) name
    (fun c w => (Ok (firstn (Z.to_nat limit) (qc_points c)), w)).

(** [delete(points_selector=PointIdsList(points=ids))]: ids that are not
    stored are ignored by the server. *)
Definition client_delete (name : string) (ids : list string) : M unit :=
  on_collection (QDelete name ids) name
    (fun _ w => (Ok tt, set_qdrant w
                          (update_collection name
                             (filter (fun p => negb (existsb (String.eqb (qp_id p)) ids)))
                             (w_collections w))
                          (w_q_log w))).

(** ** app/rag/qdrant_store.py: [QdrantVectorStore] *)

Definition or_str (x : option string) (default : string) : string :=
  match x with
  | Some v => if String.eqb v EmptyString then default else v
  | None => default
  end.

(** [_ensure_collection] *)
Definition ensure_collection (self : VectorStore) : M unit :=
  catch
    (existing_names <- client_get_collections ;;
     if existsb (String.eqb (vs_collection self)) existing_names
     then ret tt
     else client_create_collection (vs_collection self) (vs_dim self) Cosine)
    (fun _ => raise VectorStoreError).

(** [QdrantVectorStore(collection_name, embedding_dim)] *)
Definition vector_store_new (collection_name : option string) (embedding_dim : option Z)
  : M VectorStore :=
  settings <- get_settings ;;
  let self := {| vs_collection := or_str collection_name (qdrant_collection_name settings);
                 vs_dim := or_int embedding_dim (active_embedding_dim settings) |} in
  ensure_collection self ;;; ret self.

Fixpoint digits_fuel (fuel n : nat) (acc : string) : string :=
  match fuel with
  | O => acc
  | S fuel' =>
      let acc' := String (ascii_of_nat (48 + n mod 10)) acc in
      if Nat.ltb n 10 then acc' else digits_fuel fuel' (n / 10) acc'
  end.

(** [str(uuid.uuid4())]: a fresh identifier per call. *)
Definition uuid4 : M string :=
  fun w => (Ok ("uuid-" ++ digits_fuel (S (w_uuid w)) (w_uuid w) EmptyString), set_uuid w (S (w_uuid w))).

Definition now_iso : M string := fun w => (Ok (w_now w), w).

(** [{**base, **extra}] *)
Definition dict_merge {V} (base extra : list (string * V)) : list (string * V) :=
  fold_left (fun d kv => dict_set d (fst kv) (snd kv)) extra base.

Definition add (self : VectorStore) (embedding : list Q) (text : string)
  (metadata : option (list (string * pyval))) : M string :=
  doc_id <- uuid4 ;;
  created_at <- now_iso ;;
  let payload := dict_merge [("text", PStr text); ("created_at", PStr created_at)]
                   (match metadata with Some m => m | None => [] end) in
  catch
    (client_upsert (vs_collection self)
       [{| qp_id := doc_id; qp_vector := embedding; qp_payload := payload |}] ;;;
     ret doc_id)
    (fun _ => raise VectorStoreError).

Record SearchHit := {
  sh_id : string;
  sh_text : string;
  sh_score : Q;
  sh_metadata : list (string * pyval)
}.

(** [payload.get("text", default)] with the empty string as default
    (texts are stored as strings) *)
Definition payload_text (payload : list (string * pyval)) : string :=
  match dict_get payload "text" with Some (PStr s) => s | _ => EmptyString end.

Definition payload_metadata (payload : list (string * pyval)) : list (string * pyval) :=
  filter (fun kv => negb (String.eqb (fst kv) "text")) payload.

Definition search (self : VectorStore) (embedding : list Q) (top_k : option Z)
  (score_threshold : option Q) : M (list SearchHit) :=
  settings <- get_settings ;;
  let top_k := or_int top_k (rag_top_k settings) in
  let score_threshold := or_float score_threshold (rag_score_threshold settings) in
  catch
    (results <- client_query_points (vs_collection self) embedding top_k score_threshold ;;
     ret (map (fun h => {| sh_id := qp_id (fst h); sh_text := payload_text (qp_payload (fst h));
                           sh_score := snd h; sh_metadata := payload_metadata (qp_payload (fst h)) |})
              results))
    (fun _ => raise VectorStoreError).

Definition search_texts (self : VectorStore) (embedding : list Q) (top_k : option Z)
  (score_threshold : option Q) : M (list string) :=
  results <- search self embedding top_k score_threshold ;;
  ret (map sh_text results).

Record MemoryItem := {
  mi_id : string;
  mi_text : string;
  mi_metadata : list (string * pyval)
}.

Definition get_all (self : VectorStore) (limit : Z) : M (list MemoryItem) :=
  catch
    (records <- client_scroll (vs_collection self) limit ;;
     ret (map (fun p => {| mi_id := qp_id p; mi_text := payload_text (qp_payload p);
                           mi_metadata := payload_metadata (qp_payload p) |}) records))
    (fun _ => raise VectorStoreError).

Definition delete (self : VectorStore) (doc_id : string) : M bool :=
  catch
    (client_delete (vs_collection self) [doc_id] ;;; ret true)
    (fun _ => raise VectorStoreError).

(** ** app/services/embedding_service.py *)

(** [get_embedding_service()]: the constructor raises EmbeddingError when
    no API key is configured; the settings never change, so the cached
    singleton behaves the same on every call. *)
Definition get_embedding_service : M unit :=
  settings <- get_settings ;;
  if String.eqb (voyage_api_key settings) EmptyString then raise EmbeddingError else ret tt.

(** [httpx.Client().post(VOYAGE_API_URL, ...)]: the next scripted reply. *)
Definition voyage_post (texts : list string) (input_type : string) : M (list (list Q)) :=
  fun w => match w_voyage w with
           | [] => (Raise APIError, w)
           | r :: rest => (r, set_voyage w rest)
           end.

(** [_call_api]: httpx errors become EmbeddingError; retried 3 times. *)
Definition call_api_body (texts : list string) (input_type : string) : M (list (list Q)) :=
  catch (voyage_post texts input_type)
    (fun e => match e with APIError => raise EmbeddingError | _ => raise e end).

Definition call_api (texts : list string) (input_type : string) : M (list (list Q)) :=
  retry_stop_after_attempt 3 (call_api_body texts input_type).

Definition first_result (results : list (list Q)) : M (list Q) :=
  match results with v :: _ => ret v | [] => raise IndexError end.

Definition embed_query (text : string) : M (list Q) :=
  results <- call_api [text] "query" ;; first_result results.

Definition embed_document (text : string) : M (list Q) :=
  results <- call_api [text] "document" ;; first_result results.

(** ** app/rag/retriever.py *)

(** [get_vector_store()]: the singleton is set only when the constructor
    returns. *)
Definition get_vector_store : M VectorStore :=
  fun w => match w_vector_store w with
           | Some vs => (Ok vs, w)
           | None =>
               (vs <- vector_store_new (Some (qdrant_collection_name (w_settings w)))
                                       (Some (active_embedding_dim (w_settings w))) ;;
                fun w1 => (Ok vs, set_vector_store w1 (Some vs))) w
           end.

Definition store_idea (text : string) (metadata : option (list (string * pyval))) : M string :=
  get_embedding_service ;;;
  vector_store <- get_vector_store ;;
  embedding <- embed_document text ;;
  stored_at <- now_iso ;;
  let full_metadata := dict_merge [("type", PStr "idea"); ("stored_at", PStr stored_at)]
                         (match metadata with Some m => m | None => [] end) in
  add vector_store embedding text (Some full_metadata).

Definition retrieve_similar_ideas (text : string) (top_k : option Z)
  (score_threshold : option Q) : M (list string) :=
  settings <- get_settings ;;
  get_embedding_service ;;;
  vector_store <- get_vector_store ;;
  let top_k := or_int top_k (rag_top_k settings) in
  let score_threshold := or_float score_threshold (rag_score_threshold settings) in
  embedding <- embed_query text ;;
  search_texts vector_store embedding (Some top_k) (Some score_threshold).

Definition get_all_memories : M (list MemoryItem) :=
  vector_store <- get_vector_store ;; get_all vector_store 100.

Definition delete_idea (doc_id : string) : M bool :=
  vector_store <- get_vector_store ;; delete vector_store doc_id.

(** ** app/prompts/prompt.py: [load_prompt] *)

Definition load_prompt (prompt_file : string) (kwargs : list (string * string)) : M string :=
  catch
    (prompt <- read_text prompt_file ;;
     ret (fold_left (fun p kv => str_replace p ("{{ " ++ fst kv ++ " }}") (snd kv))
                    kwargs prompt))
    (fun e => match e with FileNotFoundError => ret "Prompt file not found." | _ => raise e end).

(** ** app/services/idea_service.py and task_service.py

    [json.loads] is the standard library's decoder: [None] is a
    [JSONDecodeError], [Some v] the decoded value. *)

Definition REFINE_PROMPT_PATH : string := "app/prompts/refine_prompt.txt".
Definition TASK_PROMPT_PATH : string := "app/prompts/task_extract_prompt.txt".

Section Services.

Variable json_loads : string -> option pyval.

Definition loads (s : string) : M pyval :=
  match json_loads s with Some v => ret v | None => raise JSONDecodeError end.

(** [PROMPT_PATH.read_text()] guarded by [except FileNotFoundError]. *)
Definition read_prompt (path : string) : M (option string) :=
  catch (p <- read_text path ;; ret (Some p))
    (fun e => match e with FileNotFoundError => ret None | _ => raise e end).

(** Step 3: [if store_in_memory: store_idea(raw_text, metadata={...})] *)
Definition memory_write (raw_text : string) (store_in_memory : bool) : M unit :=
  if store_in_memory
  then doc_id <- store_idea raw_text (Some [("source", PStr "user_input")]) ;; ret tt
  else ret tt.

(** Step 4: parse, annotate, or report invalid JSON. *)
Definition parse_and_annotate (llm_output : string) (related_ideas : list string) : M pyval :=
  let context_used := PBool (negb (Nat.eqb (length related_ideas) 0)) in
  catch
    (result <- loads llm_output ;;
     result <- lift (py_setitem result "context_used" context_used) ;;
     result <- lift (py_setitem result "related_ideas_count"
                       (PInt (Z.of_nat (length related_ideas)))) ;;
     ret result)
    (fun e => match e with
              | JSONDecodeError =>
                  ret (PDict [("error", PStr "LLM returned invalid JSON");
                              ("raw_output", PStr llm_output);
                              ("context_used", context_used)])
              | _ => raise e
              end).

Definition process_idea (raw_text : string) (store_in_memory : bool) : M pyval :=
  system_prompt <- read_prompt REFINE_PROMPT_PATH ;;
  match system_prompt with
  | None => ret (PDict [("error", PStr "System configuration error"); ("raw_output", PNone)])
  | Some system_prompt =>
      related_ideas <- retrieve_similar_ideas raw_text None None ;;
      llm_output <- run_llm_with_context system_prompt raw_text
                      (match related_ideas with [] => None | _ => Some related_ideas end) None ;;
      memory_write raw_text store_in_memory ;;;
      parse_and_annotate llm_output related_ideas
  end.

Definition extract_tasks (thought : string) : M pyval :=
  system_prompt <- read_prompt TASK_PROMPT_PATH ;;
  match system_prompt with
  | None => ret (PList [])
  | Some system_prompt =>
      let formatted_prompt := str_replace system_prompt "{thought}" thought in
      catch
        (response <- run_llm_structured formatted_prompt thought None ;;
         data <- loads response ;;
         lift (py_get data "tasks" (PList [])))
        (fun e => match e with
                  | JSONDecodeError => ret (PList [])
                  | _ => ret (PList [])
                  end)
  end.

(** ** app/api/routes/ideas.py: [submit_idea] *)

Inductive http_response :=
  | HttpOk (body : pyval)
  | HttpError (status : Z) (detail : list (string * pyval)).

(** FastAPI's check of a returned value against [response_model=IdeaResponse]
    and its serialisation: [None] is a ResponseValidationError, which no
    handler of the app catches, so Starlette answers 500.  Pydantic reads
    the dict's fields (its keys are unique), fills in the defaults and
    drops every other key.  The lax-mode conversions of strings to the
    bool and int fields are not modelled: [process_idea] always sets
    context_used to a bool and related_ideas_count to an int. *)
Fixpoint opt_map_all {A B} (f : A -> option B) (l : list A) : option (list B) :=
  match l with
  | [] => Some []
  | x :: l' =>
      match f x, opt_map_all f l' with
      | Some y, Some ys => Some (y :: ys)
      | _, _ => None
      end
  end.

Definition str_item (v : pyval) : option pyval :=
  match v with PStr s => Some (PStr s) | _ => None end.

(** [TaskItem]: [task: str], [priority: Literal["high", "medium", "low"]]. *)
Definition task_item (v : pyval) : option pyval :=
  match v with
  | PDict d =>
      match dict_get d "task", dict_get d "priority" with
      | Some (PStr t), Some (PStr p) =>
          if String.eqb p "high" || String.eqb p "medium" || String.eqb p "low"
          then Some (PDict [("task", PStr t); ("priority", PStr p)])
          else None
      | _, _ => None
      end
  | _ => None
  end.

(** A [list[...]] field with [default_factory=list]. *)
Definition list_field (item : pyval -> option pyval) (v : option pyval) : option pyval :=
  match v with
  | None => Some (PList [])
  | Some (PList l) => option_map PList (opt_map_all item l)
  | Some _ => None
  end.

(** A [bool] field with default False. *)
Definition bool_field (v : option pyval) : option pyval :=
  match v with
  | None => Some (PBool false)
  | Some (PBool b) => Some (PBool b)
  | Some (PInt z) =>
      if Z.eqb z 0 then Some (PBool false) else if Z.eqb z 1 then Some (PBool true) else None
  | Some (PFloat q) =>
      if Qeq_bool q 0 then Some (PBool false) else if Qeq_bool q 1 then Some (PBool true) else None
  | Some _ => None
  end.

(** An [int] field with default 0. *)
Definition int_field (v : option pyval) : option pyval :=
  match v with
  | None => Some (PInt 0)
  | Some (PInt z) => Some (PInt z)
  | Some (PBool b) => Some (PInt (if b then 1 else 0))
  | Some (PFloat q) =>
      if Z.eqb (Z.modulo (Qnum q) (Zpos (Qden q))) 0
      then Some (PInt (Z.div (Qnum q) (Zpos (Qden q)))) else None
  | Some _ => None
  end.

Definition idea_response (result : pyval) : option pyval :=
  match result with
  | PDict d =>
      match dict_get d "clean_note", list_field str_item (dict_get d "themes"),
            list_field task_item (dict_get d "suggested_tasks"),
            bool_field (dict_get d "context_used"),
            int_field (dict_get d "related_ideas_count") with
      | Some (PStr note), Some themes, Some tasks, Some cu, Some rc =>
          Some (PDict [("clean_note", PStr note); ("themes", themes); ("suggested_tasks", tasks);
                       ("context_used", cu); ("related_ideas_count", rc)])
      | _, _, _, _, _ => None
      end
  | _ => None
  end.

(** [str(e)]: messages are not modelled, the exception's class stands
    for its text. *)
Definition exn_str (e : exn) : string :=
  match e with
  | FileNotFoundError => "FileNotFoundError" | OSError => "OSError"
  | JSONDecodeError => "JSONDecodeError" | TypeError => "TypeError"
  | AttributeError => "AttributeError" | IndexError => "IndexError"
  | APIError => "APIError" | QdrantError => "UnexpectedResponse"
  | EmbeddingError => "EmbeddingError" | LLMError => "LLMError"
  | VectorStoreError => "VectorStoreError" | ConfigurationError => "ConfigurationError"
  | RetryError _ => "RetryError"
  end.

(** The route: a RAGException becomes 503 with [str(e)] as message, any
    other exception 500; a returned dict goes through the response model,
    and a ResponseValidationError is answered 500 (plain text, no detail). *)
Definition submit_idea (content : string) (store_in_memory : bool) : World -> http_response * World :=
  fun w => match process_idea content store_in_memory w with
           | (Ok result, w') =>
               match idea_response result with
               | Some body => (HttpOk body, w')
               | None => (HttpError 500 [], w')
               end
           | (Raise e, w') =>
               if is_rag_exception e
               then (HttpError 503 [("error", PStr "rag_error"); ("message", PStr (exn_str e))], w')
               else (HttpError 500 [("error", PStr "internal_error");
                                    ("message", PStr "Failed to process idea")], w')
           end.

(** [process_idea_without_memory]: no retrieval, no storage, plain [run_llm]. *)
Definition process_idea_without_memory (raw_text : string) : M pyval :=
  system_prompt <- read_prompt REFINE_PROMPT_PATH ;;
  match system_prompt with
  | None => ret (PDict [("error", PStr "System configuration error")])
  | Some system_prompt =>
      llm_output <- run_llm system_prompt raw_text None ;;
      catch (loads llm_output)
        (fun e => match e with
                  | JSONDecodeError =>
                      ret (PDict [("error", PStr "LLM returned invalid JSON");
                                  ("raw_output", PStr llm_output)])
                  | _ => raise e
                  end)
  end.

Definition task_context_block (context : list string) : string :=
  newline ++ newline ++ "Context from related notes:" ++ newline
  ++ str_join newline (map (fun c => "- " ++ c) context).

Definition extract_tasks_with_context (thought : string) (context : option (list string))
  : M pyval :=
  system_prompt <- read_prompt TASK_PROMPT_PATH ;;
  match system_prompt with
  | None => ret (PList [])
  | Some system_prompt =>
      let formatted_prompt := str_replace system_prompt "{thought}" thought in
      let formatted_prompt :=
        match context with
        | Some ((_ :: _) as ctx) => formatted_prompt ++ task_context_block ctx
        | _ => formatted_prompt
        end in
      catch
        (response <- run_llm_structured formatted_prompt thought None ;;
         data <- loads response ;;
         lift (py_get data "tasks" (PList [])))
        (fun _ => ret (PList []))
  end.

(** [len(obj)]; strings are ASCII here, so their length is their byte count. *)
Definition py_len (v : pyval) : outcome Z :=
  match v with
  | PList l => Ok (Z.of_nat (length l))
  | PDict d => Ok (Z.of_nat (length d))
  | PStr s => Ok (Z.of_nat (String.length s))
  | _ => Raise TypeError
  end.

(** ** app/api/routes/tasks.py: [extract_tasks_endpoint] *)
Definition extract_tasks_endpoint (content : string) : World -> http_response * World :=
  fun w => match (tasks <- extract_tasks content ;;
                  n <- lift (py_len tasks) ;;
                  ret (n, tasks)) w with
           | (Ok (n, tasks), w') => (HttpOk (PDict [("count", PInt n); ("tasks", tasks)]), w')
           | (Raise e, w') =>
               if is_rag_exception e
               then (HttpError 503 [("error", PStr "llm_error")], w')
               else (HttpError 500 [("error", PStr "internal_error");
                                    ("message", PStr "Failed to extract tasks")], w')
           end.

End Services.

(** ** More of app/rag/qdrant_store.py, app/rag/retriever.py, app/main.py
    and app/api/routes/ideas.py *)

Fixpoint zip3 {A B C} (a : list A) (b : list B) (c : list C) : list (A * B * C) :=
  match a, b, c with
  | x :: a', y :: b', z :: c' => (x, y, z) :: zip3 a' b' c'
  | _, _, _ => []
  end.

(** The loop of [add_batch]: a fresh id and a payload per
    [zip(embeddings, texts, metadata_list)] entry. *)
Fixpoint batch_points (items : list (list Q * string * list (string * pyval)))
  : M (list string * list QPoint) :=
  match items with
  | [] => ret ([], [])
  | (embedding, text, metadata) :: items' =>
      doc_id <- uuid4 ;;
      created_at <- now_iso ;;
      let p := {| qp_id := doc_id; qp_vector := embedding;
                  qp_payload := dict_merge [("text", PStr text); ("created_at", PStr created_at)]
                                  metadata |} in
      rest <- batch_points items' ;;
      ret (doc_id :: fst rest, p :: snd rest)
  end.

Definition add_batch (self : VectorStore) (embeddings : list (list Q)) (texts : list string)
  (metadata_list : option (list (list (string * pyval)))) : M (list string) :=
  if negb (Nat.eqb (length embeddings) (length texts)) then raise VectorStoreError else
  let metadata_list :=
    match metadata_list with
    | Some ((_ :: _) as m) => m
    | _ => map (fun _ => []) texts
    end in
  built <- batch_points (zip3 embeddings texts metadata_list) ;;
  catch (client_upsert (vs_collection self) (snd built) ;;; ret (fst built))
    (fun _ => raise VectorStoreError).

(** [client.get_collection(name)] *)
Definition client_get_collection (name : string) : M QCollection :=
  on_collection (QGetCollection name) name (fun c w => (Ok c, w)).

(** [QdrantVectorStore.count]: any failure is logged and 0 returned. *)
Definition count (self : VectorStore) : M Z :=
  catch
    (info <- client_get_collection (vs_collection self) ;;
     ret (Z.of_nat (length (qc_points info))))
    (fun _ => ret 0%Z).

(** [QdrantVectorStore.health_check] *)
Definition health_check_store (self : VectorStore) : M (list (string * pyval)) :=
  catch
    (info <- client_get_collection (vs_collection self) ;;
     ret [("status", PStr "healthy"); ("collection", PStr (vs_collection self));
          ("points_count", PInt (Z.of_nat (length (qc_points info))))])
    (fun e => ret [("status", PStr "unhealthy"); ("error", PStr (exn_str e))]).

Definition retrieve_similar_ideas_with_scores (text : string) (top_k : option Z)
  (score_threshold : option Q) : M (list SearchHit) :=
  settings <- get_settings ;;
  get_embedding_service ;;;
  vector_store <- get_vector_store ;;
  let top_k := or_int top_k (rag_top_k settings) in
  let score_threshold := or_float score_threshold (rag_score_threshold settings) in
  embedding <- embed_query text ;;
  search vector_store embedding (Some top_k) (Some score_threshold).

(** [get_memory_stats]: the dict literal evaluates [count()], the
    provider name, the dimension and [health_check()] in that order. *)
Definition get_memory_stats : M (list (string * pyval)) :=
  vector_store <- get_vector_store ;;
  get_embedding_service ;;;
  settings <- get_settings ;;
  total <- count vector_store ;;
  health <- health_check_store vector_store ;;
  ret [("total_ideas", PInt total); ("embedding_provider", PStr "voyage");
       ("embedding_dimension", PInt (voyage_embedding_dim settings));
       ("health", PDict health)].

(** [main.health_check] *)
Definition main_health_check : M (list (string * pyval)) :=
  settings <- get_settings ;;
  qdrant <- catch (vector_store <- get_vector_store ;; health_check_store vector_store)
              (fun e => ret [("status", PStr "unhealthy"); ("error", PStr (exn_str e))]) ;;
  let services :=
    [("qdrant", PDict qdrant);
     ("embedding", PDict [("status", PStr "healthy"); ("provider", PStr "voyage");
                          ("model", PStr (voyage_embedding_model settings));
                          ("dimension", PInt (active_embedding_dim settings))]);
     ("llm", PDict [("status", PStr "healthy"); ("provider", PStr "groq");
                    ("model", PStr (groq_model settings))])] in
  let overall_status :=
    match dict_get qdrant "status" with
    | Some (PStr s) => if String.eqb s "unhealthy" then "degraded" else "ok"
    | _ => "ok"
    end in
  ret [("status", PStr overall_status); ("version", PStr "1.0.0");
       ("services", PDict services)].

(** Routes of app/api/routes/ideas.py.  An exception a route does not
    catch (and that is no RAGException, which [main] maps to 503) reaches
    Starlette's error middleware: a bare 500. *)
Definition memory_item_value (m : MemoryItem) : pyval :=
  PDict [("id", PStr (mi_id m)); ("text", PStr (mi_text m)); ("metadata", PDict (mi_metadata m))].

Definition vector_store_route {A} (m : M A) (ok : A -> pyval) : World -> http_response * World :=
  fun w => match m w with
           | (Ok a, w') => (HttpOk (ok a), w')
           | (Raise e, w') =>
               if is_rag_exception e
               then (HttpError 503 [("error", PStr "vector_store_error");
                                    ("message", PStr (exn_str e))], w')
               else (HttpError 500 [], w')
           end.

Definition read_memory : World -> http_response * World :=
  vector_store_route get_all_memories
    (fun memories => PDict [("count", PInt (Z.of_nat (length memories)));
                            ("memories", PList (map memory_item_value memories))]).

Definition get_stats : World -> http_response * World :=
  vector_store_route get_memory_stats PDict.

Definition remove_memory (doc_id : string) : World -> http_response * World :=
  vector_store_route (delete_idea doc_id)
    (fun success => PDict [("success", PBool success); ("deleted_id", PStr doc_id)]).

(** ** A concrete decoder for the examples

    A subset of [json.loads] (null, booleans, integers, strings without
    escapes, arrays, objects, surrounding whitespace).  It is used only to
    run the services on concrete inputs; the results above hold for any
    decoder. *)

Definition quote_char : ascii := ascii_of_nat 34.

(** A JSON string literal: the text between double quotes. *)
Definition jstr (s : string) : string :=
  String quote_char (s ++ String quote_char EmptyString).

Definition is_ws (c : ascii) : bool :=
  match nat_of_ascii c with 32%nat | 9%nat | 10%nat | 13%nat => true | _ => false end.

Definition digit_value (c : ascii) : option Z :=
  let n := nat_of_ascii c in
  if andb (Nat.leb 48 n) (Nat.leb n 57) then Some (Z.of_nat (n - 48)%nat) else None.

Fixpoint skip_ws (s : list ascii) : list ascii :=
  match s with
  | c :: s' => if is_ws c then skip_ws s' else s
  | [] => []
  end.

Fixpoint parse_digits (s : list ascii) (acc : Z) : Z * list ascii :=
  match s with
  | c :: s' => match digit_value c with
               | Some d => parse_digits s' (10 * acc + d)
               | None => (acc, s)
               end
  | [] => (acc, s)
  end.

Fixpoint parse_chars (s : list ascii) (acc : list ascii) : option (string * list ascii) :=
  match s with
  | [] => None
  | c :: s' =>
      if Ascii.eqb c quote_char then Some (string_of_list_ascii (rev acc), s')
      else if Ascii.eqb c "\" then None
      else parse_chars s' (c :: acc)
  end.

Fixpoint parse_value (fuel : nat) (s : list ascii) : option (pyval * list ascii) :=
  match fuel with
  | O => None
  | S f =>
      match skip_ws s with
      | "n"%char :: "u"%char :: "l"%char :: "l"%char :: r => Some (PNone, r)
      | "t"%char :: "r"%char :: "u"%char :: "e"%char :: r => Some (PBool true, r)
      | "f"%char :: "a"%char :: "l"%char :: "s"%char :: "e"%char :: r => Some (PBool false, r)
      | "["%char :: r =>
          match skip_ws r with
          | "]"%char :: r' => Some (PList [], r')
          | _ => option_map (fun p => (PList (fst p), snd p)) (parse_elems f r)
          end
      | "{"%char :: r =>
          match skip_ws r with
          | "}"%char :: r' => Some (PDict [], r')
          | _ => option_map (fun p => (PDict (dict_merge [] (fst p)), snd p)) (parse_members f r)
          end
      | "-"%char :: c :: r =>
          match digit_value c with
          | Some d => let (z, r') := parse_digits r d in Some (PInt (- z), r')
          | None => None
          end
      | c :: r =>
          if Ascii.eqb c quote_char
          then option_map (fun p => (PStr (fst p), snd p)) (parse_chars r [])
          else match digit_value c with
               | Some d => let (z, r') := parse_digits r d in Some (PInt z, r')
               | None => None
               end
      | [] => None
      end
  end
with parse_elems (fuel : nat) (s : list ascii) : option (list pyval * list ascii) :=
  match fuel with
  | O => None
  | S f =>
      match parse_value f s with
      | None => None
      | Some (v, r) =>
          match skip_ws r with
          | ","%char :: r' => option_map (fun p => (v :: fst p, snd p)) (parse_elems f r')
          | "]"%char :: r' => Some ([v], r')
          | _ => None
          end
      end
  end
with parse_members (fuel : nat) (s : list ascii)
  : option (list (string * pyval) * list ascii) :=
  match fuel with
  | O => None
  | S f =>
      match skip_ws s with
      | c :: r =>
          if negb (Ascii.eqb c quote_char) then None else
          match parse_chars r [] with
          | None => None
          | Some (k, r1) =>
              match skip_ws r1 with
              | ":"%char :: r2 =>
                  match parse_value f r2 with
                  | None => None
                  | Some (v, r3) =>
                      match skip_ws r3 with
                      | ","%char :: r4 =>
                          option_map (fun p => ((k, v) :: fst p, snd p))
                            (parse_members f r4)
                      | "}"%char :: r4 => Some ([(k, v)], r4)
                      | _ => None
                      end
                  end
              | _ => None
              end
          end
      | _ => None
      end
  end.

Definition py_json_loads (s : string) : option pyval :=
  let cs := list_ascii_of_string s in
  match parse_value (S (length cs)) cs with
  | Some (v, rest) => match skip_ws rest with [] => Some v | _ => None end
  | None => None
  end.

Example py_json_loads_object :
  py_json_loads ("{" ++ jstr "clean_note" ++ ": " ++ jstr "x" ++ ", "
                  ++ jstr "themes" ++ ": [1, -2]}")
  = Some (PDict [("clean_note", PStr "x"); ("themes", PList [PInt 1; PInt (-2)])]).
Proof. reflexivity. Qed.

(** ** Concrete worlds for the examples *)

Definition demo_point (id : string) (v : list Q) (text : string) : QPoint :=
  {| qp_id := id; qp_vector := v; qp_payload := [("text", PStr text)] |}.

Definition demo_ideas : QCollection :=
  {| qc_name := "ideas"; qc_size := 2; qc_distance := Cosine;
     qc_points := [demo_point "11111111-1111-4111-8111-111111111111" [1; 0] "finish the thesis";
                   demo_point "22222222-2222-4222-8222-222222222222" [0; 1] "plan a trip"] |}.

(** Default settings, both prompt files present, the [ideas] collection
    on a reachable server, and the given scripted API replies. *)
Definition demo_world (chat : list (outcome string)) (voyage : list (outcome (list (list Q))))
  : World :=
  mkWorld default_settings
    [(REFINE_PROMPT_PATH, Some "Refine the note."); (TASK_PROMPT_PATH, Some "Extract tasks: {thought}")]
    chat [] voyage [] true [demo_ideas] [] None 0 "2026-01-01T00:00:00+00:00".

Definition demo_store : VectorStore := {| vs_collection := "ideas"; vs_dim := 1024 |}.

Definition demo_note_json : string :=
  "{" ++ jstr "clean_note" ++ ": " ++ jstr "Finish thesis" ++ ", "
      ++ jstr "themes" ++ ": [" ++ jstr "academic" ++ "]}".

(** ** Lemmas on dicts and on the monad *)

Lemma dict_get_set_same {V} (d : list (string * V)) k v :
  dict_get (dict_set d k v) k = Some v.
Proof.
  induction d as [|[k' v'] d IH]; simpl.
  - now rewrite String.eqb_refl.
  - destruct (String.eqb k k') eqn:E; simpl.
    + apply String.eqb_eq in E; subst. now rewrite String.eqb_refl.
    + now rewrite E.
Qed.

Lemma dict_get_set_other {V} (d : list (string * V)) k k' v :
  k' <> k -> dict_get (dict_set d k v) k' = dict_get d k'.
Proof.
  intros Hne. induction d as [|[k0 v0] d IH]; simpl.
  - destruct (String.eqb k' k) eqn:E; [apply String.eqb_eq in E; congruence | reflexivity].
  - destruct (String.eqb k k0) eqn:E; simpl.
    + apply String.eqb_eq in E; subst.
      destruct (String.eqb k' k0) eqn:E'; [apply String.eqb_eq in E'; congruence | reflexivity].
    + destruct (String.eqb k' k0); [reflexivity | exact IH].
Qed.

Lemma bind_ok {A B} (m : M A) (k : A -> M B) w a w1 :
  m w = (Ok a, w1) -> bind m k w = k a w1.
Proof. intros H. unfold bind. now rewrite H. Qed.

Lemma bind_raise {A B} (m : M A) (k : A -> M B) w e w1 :
  m w = (Raise e, w1) -> bind m k w = (Raise e, w1).
Proof. intros H. unfold bind. now rewrite H. Qed.

Section IdeaService.

Variable json_loads : string -> option pyval.

Lemma process_idea_steps raw store w p :
  dict_get (w_files w) REFINE_PROMPT_PATH = Some (Some p) ->
  process_idea json_loads raw store w =
  (related <- retrieve_similar_ideas raw None None ;;
   llm_output <- run_llm_with_context p raw
                   (match related with [] => None | _ => Some related end) None ;;
   memory_write raw store ;;;
   parse_and_annotate json_loads llm_output related) w.
Proof.
  intros Hp. unfold process_idea.
  rewrite (bind_ok (read_prompt REFINE_PROMPT_PATH) _ w (Some p) w); [reflexivity |].
  unfold read_prompt, catch, bind, read_text, ret. now rewrite Hp.
Qed.

Lemma parse_and_annotate_object s r o w :
  json_loads s = Some (PDict o) ->
  parse_and_annotate json_loads s r w =
  (Ok (PDict (dict_set (dict_set o "context_used" (PBool (negb (Nat.eqb (length r) 0))))
                 "related_ideas_count" (PInt (Z.of_nat (length r))))), w).
Proof.
  intros Hs. unfold parse_and_annotate, catch, bind, loads, lift, ret. now rewrite Hs.
Qed.

Lemma parse_and_annotate_invalid s r w :
  json_loads s = None ->
  parse_and_annotate json_loads s r w =
  (Ok (PDict [("error", PStr "LLM returned invalid JSON"); ("raw_output", PStr s);
              ("context_used", PBool (negb (Nat.eqb (length r) 0)))]), w).
Proof.
  intros Hs. unfold parse_and_annotate, catch, bind, loads, lift, raise, ret. now rewrite Hs.
Qed.

Lemma parse_and_annotate_not_object s r v w :
  json_loads s = Some v -> (forall d, v <> PDict d) ->
  parse_and_annotate json_loads s r w = (Raise TypeError, w).
Proof.
  intros Hs Hv. unfold parse_and_annotate, catch, bind, loads, lift, raise, ret.
  rewrite Hs. destruct v; try reflexivity. exfalso. exact (Hv d eq_refl).
Qed.

End IdeaService.

(** ** Idea processing: annotation of a parsed object (C1) *)

(** C1: when [process_idea] returns and the LLM output of the call parses
    as a JSON object, the returned dict has [related_ideas_count] equal to
    the number of ideas [retrieve_similar_ideas] returned and
    [context_used] a boolean that is true iff that number is nonzero. *)
Theorem process_idea_related_ideas_count (json_loads : string -> option pyval)
  (raw : string) (store : bool) (w : World) (p : string) (r : list string) (w1 : World)
  (s : string) (w2 : World) (o : list (string * pyval)) (d : pyval) (w' : World)
  (Hp : dict_get (w_files w) REFINE_PROMPT_PATH = Some (Some p))
  (Hr : retrieve_similar_ideas raw None None w = (Ok r, w1))
  (Hs : run_llm_with_context p raw (match r with [] => None | _ => Some r end) None w1
        = (Ok s, w2))
  (Ho : json_loads s = Some (PDict o))
  (Hd : process_idea json_loads raw store w = (Ok d, w')) :
  exists fields b,
    d = PDict fields /\
    dict_get fields "related_ideas_count" = Some (PInt (Z.of_nat (length r))) /\
    dict_get fields "context_used" = Some (PBool b) /\
    (b = true <-> length r <> 0%nat).
Proof.
  rewrite (process_idea_steps json_loads raw store w p Hp) in Hd.
  rewrite (bind_ok _ _ w r w1 Hr) in Hd.
  rewrite (bind_ok _ _ w1 s w2 Hs) in Hd.
  destruct (memory_write raw store w2) as [[[]|e] w3] eqn:Hm.
  - rewrite (bind_ok _ _ w2 tt w3 Hm) in Hd.
    rewrite (parse_and_annotate_object json_loads s r o w3 Ho) in Hd.
    injection Hd as Hd _. subst d.
    eexists. exists (negb (Nat.eqb (length r) 0)). split; [reflexivity |].
    split; [apply dict_get_set_same |].
    split.
    + rewrite dict_get_set_other by discriminate. apply dict_get_set_same.
    + destruct (length r); simpl; split; congruence.
  - rewrite (bind_raise _ _ w2 e w3 Hm) in Hd. discriminate.
Qed.

Definition c1_world : World :=
  demo_world [Ok demo_note_json] [Ok [[1; 0]]; Ok [[1; 0]]].

Lemma process_idea_related_ideas_count_witness :
  exists fields b,
    match fst (process_idea py_json_loads "need to finish thesis" true c1_world) with
    | Ok d => d | Raise _ => PNone end = PDict fields /\
    dict_get fields "related_ideas_count" = Some (PInt 1) /\
    dict_get fields "context_used" = Some (PBool b) /\
    (b = true <-> length ["finish the thesis"] <> 0%nat).
Proof.
  apply (process_idea_related_ideas_count py_json_loads "need to finish thesis" true c1_world
           "Refine the note." ["finish the thesis"]
           (snd (retrieve_similar_ideas "need to finish thesis" None None c1_world))
           demo_note_json
           (snd (run_llm_with_context "Refine the note." "need to finish thesis"
                   (Some ["finish the thesis"]) None
                   (snd (retrieve_similar_ideas "need to finish thesis" None None c1_world))))
           [("clean_note", PStr "Finish thesis"); ("themes", PList [PStr "academic"])]
           _ (snd (process_idea py_json_loads "need to finish thesis" true c1_world)));
    vm_compute; reflexivity.
Defined.

(** ** Idea processing: invalid JSON (C2) *)

(** The store step runs before parsing: with a non-JSON LLM reply and an
    embedding API that fails while storing, [process_idea] raises. *)
Definition c2_world : World :=
  demo_world [Ok "not json"] [Ok [[1; 0]]; Raise APIError; Raise APIError; Raise APIError].

(** C2 (counterexample): the LLM output "not json" fails to parse, yet
    [process_idea(..., store_in_memory=True)] raises (tenacity's
    RetryError from the document embedding) instead of returning a dict. *)
Lemma process_idea_invalid_json_store_failure :
  py_json_loads "not json" = None /\
  fst (run_llm_with_context "Refine the note." "need to finish thesis"
         (Some ["finish the thesis"]) None
         (snd (retrieve_similar_ideas "need to finish thesis" None None c2_world)))
    = Ok "not json" /\
  fst (process_idea py_json_loads "need to finish thesis" true c2_world)
    = Raise (RetryError EmbeddingError).
Proof. vm_compute. repeat split. Qed.

(** C2 (amended): when the LLM output fails to parse as JSON and the
    memory-write step completes (nothing to store, or [store_idea]
    returned), [process_idea] returns the error dict whose [raw_output]
    is the verbatim LLM output. *)
Theorem process_idea_invalid_json_error (json_loads : string -> option pyval)
  (raw : string) (store : bool) (w : World) (p : string) (r : list string) (w1 : World)
  (s : string) (w2 w3 : World)
  (Hp : dict_get (w_files w) REFINE_PROMPT_PATH = Some (Some p))
  (Hr : retrieve_similar_ideas raw None None w = (Ok r, w1))
  (Hs : run_llm_with_context p raw (match r with [] => None | _ => Some r end) None w1
        = (Ok s, w2))
  (Hinv : json_loads s = None)
  (Hm : memory_write raw store w2 = (Ok tt, w3)) :
  process_idea json_loads raw store w =
  (Ok (PDict [("error", PStr "LLM returned invalid JSON"); ("raw_output", PStr s);
              ("context_used", PBool (negb (Nat.eqb (length r) 0)))]), w3).
Proof.
  rewrite (process_idea_steps json_loads raw store w p Hp).
  rewrite (bind_ok _ _ w r w1 Hr), (bind_ok _ _ w1 s w2 Hs), (bind_ok _ _ w2 tt w3 Hm).
  apply parse_and_annotate_invalid; exact Hinv.
Qed.

Definition c2_ok_world : World :=
  demo_world [Ok "not json"] [Ok [[0; 0]]].

Lemma process_idea_invalid_json_error_witness :
  fst (process_idea py_json_loads "some idea" false c2_ok_world) =
  Ok (PDict [("error", PStr "LLM returned invalid JSON"); ("raw_output", PStr "not json");
             ("context_used", PBool false)]).
Proof.
  rewrite (process_idea_invalid_json_error py_json_loads "some idea" false c2_ok_world
             "Refine the note." []
             (snd (retrieve_similar_ideas "some idea" None None c2_ok_world))
             "not json"
             (snd (run_llm_with_context "Refine the note." "some idea" None None
                     (snd (retrieve_similar_ideas "some idea" None None c2_ok_world))))
             (snd (run_llm_with_context "Refine the note." "some idea" None None
                     (snd (retrieve_similar_ideas "some idea" None None c2_ok_world)))));
    vm_compute; reflexivity.
Defined.

(** ** Idea processing: JSON that is not an object (C9) *)

(** C9: when the LLM output is valid JSON but not an object (an array, a
    number, a string, a boolean or null), the annotation step raises
    TypeError, which is not a RAGException, so POST /ideas/ answers 500. *)
Theorem process_idea_non_object_json_type_error (json_loads : string -> option pyval)
  (raw : string) (store : bool) (w : World) (p : string) (r : list string) (w1 : World)
  (s : string) (w2 w3 : World) (v : pyval)
  (Hp : dict_get (w_files w) REFINE_PROMPT_PATH = Some (Some p))
  (Hr : retrieve_similar_ideas raw None None w = (Ok r, w1))
  (Hs : run_llm_with_context p raw (match r with [] => None | _ => Some r end) None w1
        = (Ok s, w2))
  (Hv : json_loads s = Some v)
  (Hnd : forall d, v <> PDict d)
  (Hm : memory_write raw store w2 = (Ok tt, w3)) :
  process_idea json_loads raw store w = (Raise TypeError, w3) /\
  submit_idea json_loads raw store w =
  (HttpError 500 [("error", PStr "internal_error"); ("message", PStr "Failed to process idea")], w3).
Proof.
  assert (H : process_idea json_loads raw store w = (Raise TypeError, w3)).
  { rewrite (process_idea_steps json_loads raw store w p Hp).
    rewrite (bind_ok _ _ w r w1 Hr), (bind_ok _ _ w1 s w2 Hs), (bind_ok _ _ w2 tt w3 Hm).
    exact (parse_and_annotate_not_object json_loads s r v w3 Hv Hnd). }
  split; [exact H |]. unfold submit_idea. rewrite H. reflexivity.
Qed.

Definition c9_world : World :=
  demo_world [Ok "[1, 2]"] [Ok [[1; 0]]; Ok [[1; 0]]].

Lemma process_idea_non_object_json_type_error_witness :
  py_json_loads "[1, 2]" = Some (PList [PInt 1; PInt 2]) /\
  fst (process_idea py_json_loads "need to finish thesis" true c9_world) = Raise TypeError /\
  fst (submit_idea py_json_loads "need to finish thesis" true c9_world) =
  HttpError 500 [("error", PStr "internal_error"); ("message", PStr "Failed to process idea")].
Proof.
  assert (H := process_idea_non_object_json_type_error py_json_loads "need to finish thesis" true
             c9_world "Refine the note." ["finish the thesis"]
             (snd (retrieve_similar_ideas "need to finish thesis" None None c9_world))
             "[1, 2]"
             (snd (run_llm_with_context "Refine the note." "need to finish thesis"
                     (Some ["finish the thesis"]) None
                     (snd (retrieve_similar_ideas "need to finish thesis" None None c9_world))))
             (snd (memory_write "need to finish thesis" true
                     (snd (run_llm_with_context "Refine the note." "need to finish thesis"
                             (Some ["finish the thesis"]) None
                             (snd (retrieve_similar_ideas "need to finish thesis" None None
                                     c9_world))))))
             (PList [PInt 1; PInt 2])).
  destruct H as [H1 H2].
  - vm_compute. reflexivity.
  - vm_compute. reflexivity.
  - vm_compute. reflexivity.
  - vm_compute. reflexivity.
  - intros d. discriminate.
  - vm_compute. reflexivity.
  - split; [vm_compute; reflexivity |]. rewrite H1, H2. split; reflexivity.
Defined.

(** ** LLM client: retries and exhaustion (C3) *)

(** A retried call that raises raises tenacity's RetryError around an
    exception of the wrapped body. *)
Lemma retry_from_raises_retry_error {A} (f : M A) (P : exn -> Prop) :
  (forall w e w', f w = (Raise e, w') -> P e) ->
  forall left attempt w e w',
    retry_from f attempt left w = (Raise e, w') -> exists e0, e = RetryError e0 /\ P e0.
Proof.
  intros Hf left. induction left as [|left IH]; intros attempt w e w' H; simpl in H;
    destruct (f w) as [[a|e0] w0] eqn:Ef; try discriminate.
  - injection H as <- _. exists e0. split; [reflexivity | exact (Hf _ _ _ Ef)].
  - exact (IH _ _ _ _ H).
Qed.

Lemma run_llm_body_raises_llm_error sp ui t w e w' :
  run_llm_body sp ui t w = (Raise e, w') -> e = LLMError.
Proof.
  unfold run_llm_body, get_settings, bind, catch, raise, chat_completions_create.
  destruct (w_chat w) as [|[c|e0] rest]; intros H; injection H; auto; discriminate.
Qed.

Definition c3_world : World :=
  demo_world (repeat (Raise APIError) 9) [].

(** C3 (code_bug): once its attempts are exhausted [run_llm] raises
    tenacity's RetryError (wrapping LLMError), never LLMError itself;
    [run_llm_with_context] nests two retry loops (9 requests, a RetryError
    around a RetryError); [run_llm_structured] has no retry at all (one
    request, then LLMError). *)
Theorem llm_calls_exhaustion_behaviour :
  (forall sp ui t w e w', run_llm sp ui t w = (Raise e, w') -> e = RetryError LLMError) /\
  fst (run_llm "Refine the note." "hi" None c3_world) = Raise (RetryError LLMError) /\
  length (w_chat_log (snd (run_llm "Refine the note." "hi" None c3_world))) = 3%nat /\
  w_sleeps (snd (run_llm "Refine the note." "hi" None c3_world)) = [2%Z; 1%Z] /\
  fst (run_llm_with_context "Refine the note." "hi" (Some ["ctx"]) None c3_world)
    = Raise (RetryError (RetryError LLMError)) /\
  length (w_chat_log (snd (run_llm_with_context "Refine the note." "hi" (Some ["ctx"]) None
                             c3_world))) = 9%nat /\
  fst (run_llm_structured "Extract tasks: hi" "hi" None c3_world) = Raise LLMError /\
  length (w_chat_log (snd (run_llm_structured "Extract tasks: hi" "hi" None c3_world))) = 1%nat.
Proof.
  split.
  - intros sp ui t w e w' H.
    destruct (retry_from_raises_retry_error _ (fun e => e = LLMError)
                (run_llm_body_raises_llm_error sp ui t) _ _ _ _ _ H) as [e0 [-> ->]].
    reflexivity.
  - vm_compute. repeat split.
Qed.

(** ** Task extraction (C4, C5) *)

Lemma read_prompt_present path w p :
  dict_get (w_files w) path = Some (Some p) -> read_prompt path w = (Ok (Some p), w).
Proof. intros H. unfold read_prompt, catch, bind, read_text, ret. now rewrite H. Qed.

Lemma read_prompt_missing path w :
  dict_get (w_files w) path = None -> read_prompt path w = (Ok None, w).
Proof. intros H. unfold read_prompt, catch, bind, read_text, ret. now rewrite H. Qed.

Lemma run_llm_structured_request sp ui rf w :
  exists req,
    w_chat_log (snd (run_llm_structured sp ui rf w)) = req :: w_chat_log w /\
    cr_response_format req =
      match rf with Some (_ :: _) => Some [("type", "json_object")] | _ => None end /\
    cr_temperature req = 1 # 10.
Proof.
  unfold run_llm_structured, get_settings, bind, catch, raise, chat_completions_create.
  destruct (w_chat w) as [|[c|e] rest]; simpl; eexists; repeat split.
Qed.

Lemma extract_tasks_world (json_loads : string -> option pyval) thought w p :
  dict_get (w_files w) TASK_PROMPT_PATH = Some (Some p) ->
  snd (extract_tasks json_loads thought w) =
  snd (run_llm_structured (str_replace p "{thought}" thought) thought None w).
Proof.
  intros Hp. unfold extract_tasks.
  rewrite (bind_ok _ _ w (Some p) w (read_prompt_present _ _ _ Hp)).
  unfold catch, bind at 1.
  destruct (run_llm_structured (str_replace p "{thought}" thought) thought None w)
    as [[s|e] w1] eqn:E; [| destruct e; reflexivity].
  unfold bind, loads, lift, raise, ret.
  destruct (json_loads s) as [v|]; [| reflexivity].
  destruct (py_get v "tasks" (PList [])) as [|e]; [reflexivity | destruct e; reflexivity].
Qed.

(** C4 (code_bug): the request [extract_tasks] sends through
    [run_llm_structured] uses the fixed temperature 0.1 (below the default
    0.3 of [llm_temperature]) but carries no JSON response format:
    [extract_tasks] passes no [response_format], so JSON mode is off. *)
Theorem extract_tasks_request_not_json_mode (json_loads : string -> option pyval)
  (thought : string) (w : World) (p : string)
  (Hp : dict_get (w_files w) TASK_PROMPT_PATH = Some (Some p)) :
  exists req,
    w_chat_log (snd (extract_tasks json_loads thought w)) = req :: w_chat_log w /\
    cr_response_format req = None /\
    cr_temperature req = 1 # 10 /\
    (1 # 10 < llm_temperature default_settings)%Q.
Proof.
  rewrite (extract_tasks_world json_loads thought w p Hp).
  destruct (run_llm_structured_request (str_replace p "{thought}" thought) thought None w)
    as [req [Hl [Hf Ht]]].
  exists req. repeat split; assumption.
Qed.

Definition c4_world : World :=
  demo_world [Ok ("{" ++ jstr "tasks" ++ ": []}")] [].

Lemma extract_tasks_request_not_json_mode_witness :
  exists req,
    w_chat_log (snd (extract_tasks py_json_loads "buy groceries" c4_world)) = req :: [] /\
    cr_response_format req = None /\
    cr_temperature req = 1 # 10 /\
    (1 # 10 < llm_temperature default_settings)%Q.
Proof.
  apply (extract_tasks_request_not_json_mode py_json_loads "buy groceries" c4_world
           "Extract tasks: {thought}").
  vm_compute. reflexivity.
Defined.

(** C5: a missing prompt file, a failing LLM call, an unparsable reply
    or a reply object without "tasks" all make [extract_tasks] return the
    empty list; no exception reaches the caller. *)
Theorem extract_tasks_failures_yield_empty (json_loads : string -> option pyval)
  (thought : string) (w : World)
  (Hfail :
     dict_get (w_files w) TASK_PROMPT_PATH = None \/
     exists p,
       dict_get (w_files w) TASK_PROMPT_PATH = Some (Some p) /\
       ((exists e w1,
           run_llm_structured (str_replace p "{thought}" thought) thought None w = (Raise e, w1)) \/
        (exists s w1,
           run_llm_structured (str_replace p "{thought}" thought) thought None w = (Ok s, w1) /\
           (json_loads s = None \/
            exists d, json_loads s = Some (PDict d) /\ dict_get d "tasks" = None)))) :
  fst (extract_tasks json_loads thought w) = Ok (PList []).
Proof.
  unfold extract_tasks.
  destruct Hfail as [Hnone | [p [Hp Hcase]]].
  - rewrite (bind_ok _ _ w None w (read_prompt_missing _ _ Hnone)). reflexivity.
  - rewrite (bind_ok _ _ w (Some p) w (read_prompt_present _ _ _ Hp)).
    unfold catch, bind at 1.
    destruct Hcase as [[e [w1 He]] | [s [w1 [Hs Hparse]]]].
    + rewrite He. destruct e; reflexivity.
    + rewrite Hs. unfold bind, loads, lift, raise, ret.
      destruct Hparse as [Hn | [d [Hd Ht]]].
      * rewrite Hn. reflexivity.
      * rewrite Hd. simpl. rewrite Ht. reflexivity.
Qed.

Definition c5_world : World :=
  mkWorld default_settings [] [] [] [] [] true [demo_ideas] [] None 0 "2026-01-01T00:00:00+00:00".

Lemma extract_tasks_failures_yield_empty_witness :
  dict_get (w_files c5_world) TASK_PROMPT_PATH = None /\
  fst (extract_tasks py_json_loads "buy groceries" c5_world) = Ok (PList []).
Proof.
  split; [reflexivity |].
  apply extract_tasks_failures_yield_empty. left. reflexivity.
Defined.

(** ** Vector store: delete (C6) *)

Lemma find_update_collection name f cs :
  find_collection name (update_collection name f cs) =
  option_map (fun c => with_points c (f (qc_points c))) (find_collection name cs).
Proof.
  induction cs as [|c cs IH]; simpl; [reflexivity |].
  destruct (String.eqb (qc_name c) name) eqn:E; simpl.
  - now rewrite E.
  - now rewrite E.
Qed.

Lemma in_firstn_in {A} (x : A) n l : In x (firstn n l) -> In x l.
Proof.
  revert l. induction n as [|n IH]; intros [|y l]; simpl; try tauto.
  intros [H|H]; [now left | right; now apply IH].
Qed.

(** The outcome of [delete]: it returns True and the id is gone from the
    collection, or it raises VectorStoreError. *)
Lemma delete_outcome vs doc_id w :
  match delete vs doc_id w with
  | (Ok b, w') =>
      b = true /\
      forall limit items w'', get_all vs limit w' = (Ok items, w'') -> ~ In doc_id (map mi_id items)
  | (Raise e, _) => e = VectorStoreError
  end.
Proof.
  unfold delete, catch, bind, client_delete, on_collection, raise, ret.
  destruct (w_qdrant_up w) eqn:Hup; simpl; [| reflexivity].
  destruct (find_collection (vs_collection vs) (w_collections w)) as [c|] eqn:Hc; simpl;
    [| reflexivity].
  split; [reflexivity |].
  intros limit items w'' Hg.
  unfold get_all, catch, bind, client_scroll, on_collection, raise, ret in Hg. simpl in Hg.
  rewrite Hup in Hg. simpl in Hg.
  rewrite find_update_collection, Hc in Hg. simpl in Hg.
  injection Hg as <- _.
  rewrite map_map. simpl. intros Hin.
  apply in_map_iff in Hin as [p [Hid Hp]].
  apply in_firstn_in in Hp. apply filter_In in Hp as [_ Hkeep].
  rewrite Hid in Hkeep. simpl in Hkeep. rewrite String.eqb_refl in Hkeep. discriminate.
Qed.

(** C6 (counterexample): deleting an id that is not stored returns True,
    not False. *)
Lemma delete_absent_id_returns_true :
  ~ In "33333333-3333-4333-8333-333333333333" (map qp_id (qc_points demo_ideas)) /\
  fst (delete demo_store "33333333-3333-4333-8333-333333333333" (demo_world [] [])) = Ok true.
Proof.
  split; [| reflexivity].
  simpl. intros [H | [H | []]]; discriminate.
Qed.

(** C6 (amended): [delete] never returns False.  It returns True whenever
    the client delete call succeeds (also for an id that is not stored),
    after which [get_all] no longer lists the id; otherwise it raises
    VectorStoreError. *)
Theorem delete_true_or_vector_store_error (vs : VectorStore) (doc_id : string) (w : World) :
  match delete vs doc_id w with
  | (Ok b, w') =>
      b = true /\
      forall limit items w'', get_all vs limit w' = (Ok items, w'') -> ~ In doc_id (map mi_id items)
  | (Raise e, _) => e = VectorStoreError
  end.
Proof. exact (delete_outcome vs doc_id w). Qed.

(** ** Vector store: collection initialisation (C7) *)

Lemma ensure_collection_present vs w :
  In (vs_collection vs) (map qc_name (w_collections w)) ->
  ensure_collection vs w =
  (if w_qdrant_up w then Ok tt else Raise VectorStoreError, log_q QGetCollections w).
Proof.
  intros Hin. unfold ensure_collection, catch, bind, client_get_collections, raise, ret.
  destruct (w_qdrant_up w); [| reflexivity].
  assert (Hex : existsb (String.eqb (vs_collection vs)) (map qc_name (w_collections w)) = true).
  { apply existsb_exists. exists (vs_collection vs). split; [exact Hin | apply String.eqb_refl]. }
  now rewrite Hex.
Qed.

Lemma ensure_collection_ok_present vs w w' :
  ensure_collection vs w = (Ok tt, w') ->
  In (vs_collection vs) (map qc_name (w_collections w')) /\ w_qdrant_up w' = true.
Proof.
  unfold ensure_collection, catch, bind, client_get_collections, client_create_collection,
    raise, ret.
  destruct (w_qdrant_up w) eqn:Hup; simpl; [| intros H; discriminate H].
  destruct (existsb (String.eqb (vs_collection vs)) (map qc_name (w_collections w))) eqn:Hex.
  - intros H. injection H as <-. simpl. split; [| exact Hup].
    apply existsb_exists in Hex as [x [Hx Heq]]. apply String.eqb_eq in Heq. now subst.
  - simpl.
    destruct (find_collection (vs_collection vs) (w_collections w));
      [intros H; rewrite Hup in H; simpl in H; discriminate H |].
    intros H. rewrite Hup in H. simpl in H. injection H as <-. simpl. split; [| exact Hup].
    rewrite map_app, in_app_iff. right. simpl. now left.
Qed.

(** A second initialisation after a successful one does not create. *)
Lemma ensure_collection_twice vs w w' :
  ensure_collection vs w = (Ok tt, w') ->
  ensure_collection vs w' = (Ok tt, log_q QGetCollections w').
Proof.
  intros H. destruct (ensure_collection_ok_present vs w w' H) as [Hin Hup].
  rewrite (ensure_collection_present vs w' Hin), Hup. reflexivity.
Qed.

(** C7: when the collection already exists, [_ensure_collection] only
    lists the collections: no creation request, the collections (and
    their points) unchanged, and it succeeds whenever the server is up. *)
Theorem ensure_collection_existing_untouched (vs : VectorStore) (w : World)
  (Hin : In (vs_collection vs) (map qc_name (w_collections w))) :
  w_collections (snd (ensure_collection vs w)) = w_collections w /\
  w_q_log (snd (ensure_collection vs w)) = QGetCollections :: w_q_log w /\
  (w_qdrant_up w = true -> fst (ensure_collection vs w) = Ok tt).
Proof.
  rewrite (ensure_collection_present vs w Hin).
  split; [reflexivity |]. split; [reflexivity |].
  intros ->. reflexivity.
Qed.

Lemma ensure_collection_existing_untouched_witness :
  w_collections (snd (ensure_collection demo_store (demo_world [] []))) = [demo_ideas] /\
  w_q_log (snd (ensure_collection demo_store (demo_world [] []))) = [QGetCollections] /\
  (w_qdrant_up (demo_world [] []) = true ->
   fst (ensure_collection demo_store (demo_world [] [])) = Ok tt).
Proof.
  apply (ensure_collection_existing_untouched demo_store (demo_world [] [])).
  simpl. now left.
Defined.

(** ** Prompt loading (C8) *)

(** C8 (counterexample): a missing template does not raise: [load_prompt]
    returns normally with a sentinel text. *)
Lemma load_prompt_missing_returns_text :
  load_prompt "app/prompts/missing.txt" [("thought", "x")] (demo_world [] []) =
  (Ok "Prompt file not found.", demo_world [] []).
Proof. reflexivity. Qed.

(** C8 (amended): when the template file is missing, [load_prompt]
    returns the text "Prompt file not found." and raises nothing. *)
Theorem load_prompt_missing_file (prompt_file : string) (kwargs : list (string * string))
  (w : World) (Hmissing : dict_get (w_files w) prompt_file = None) :
  load_prompt prompt_file kwargs w = (Ok "Prompt file not found.", w).
Proof.
  unfold load_prompt, catch, bind, read_text, ret. now rewrite Hmissing.
Qed.

Lemma load_prompt_missing_file_witness :
  dict_get (w_files (demo_world [] [])) "app/prompts/missing.txt" = None /\
  load_prompt "app/prompts/missing.txt" [] (demo_world [] []) =
  (Ok "Prompt file not found.", demo_world [] []).
Proof.
  split; [reflexivity |].
  apply load_prompt_missing_file. reflexivity.
Defined.

(** ** Retrieval defaults (C10) *)

Definition is_query_event (ev : QEvent) : bool :=
  match ev with QQueryPoints _ _ _ => true | _ => false end.

(** A computation keeps the settings, and every Qdrant request it adds
    to the log satisfies [P] (read at the settings it started with). *)
Definition preserves_settings {A} (m : M A) : Prop :=
  forall w, w_settings (snd (m w)) = w_settings w.

Definition logs_only {A} (P : Settings -> QEvent -> Prop) (m : M A) : Prop :=
  forall w ev, In ev (w_q_log (snd (m w))) -> In ev (w_q_log w) \/ P (w_settings w) ev.

Definition no_query (s : Settings) (ev : QEvent) : Prop := is_query_event ev = false.

Create HintDb qlog.

Lemma preserves_bind {A B} (m : M A) (k : A -> M B) :
  preserves_settings m -> (forall a, preserves_settings (k a)) -> preserves_settings (bind m k).
Proof.
  intros Hm Hk w. unfold bind. specialize (Hm w).
  destruct (m w) as [[a|e] w1]; simpl in *; [rewrite Hk |]; exact Hm.
Qed.

Lemma preserves_catch {A} (m : M A) (h : exn -> M A) :
  preserves_settings m -> (forall e, preserves_settings (h e)) -> preserves_settings (catch m h).
Proof.
  intros Hm Hh w. unfold catch. specialize (Hm w).
  destruct (m w) as [[a|e] w1]; simpl in *; [| rewrite Hh]; exact Hm.
Qed.

Lemma logs_only_bind {A B} P (m : M A) (k : A -> M B) :
  preserves_settings m -> logs_only P m -> (forall a, logs_only P (k a)) ->
  logs_only P (bind m k).
Proof.
  intros Hs Hm Hk w ev. unfold bind. specialize (Hs w). specialize (Hm w ev).
  destruct (m w) as [[a|e] w1]; simpl in *; [| exact Hm].
  intros H. destruct (Hk a w1 ev H) as [H1 | H1]; [exact (Hm H1) | right; congruence].
Qed.

Lemma logs_only_catch {A} P (m : M A) (h : exn -> M A) :
  preserves_settings m -> logs_only P m -> (forall e, logs_only P (h e)) ->
  logs_only P (catch m h).
Proof.
  intros Hs Hm Hh w ev. unfold catch. specialize (Hs w). specialize (Hm w ev).
  destruct (m w) as [[a|e] w1]; simpl in *; [exact Hm |].
  intros H. destruct (Hh e w1 ev H) as [H1 | H1]; [exact (Hm H1) | right; congruence].
Qed.

Lemma preserves_ret {A} (a : A) : preserves_settings (ret a).
Proof. intros w. reflexivity. Qed.
Lemma preserves_raise {A} e : preserves_settings (@raise A e).
Proof. intros w. reflexivity. Qed.
Lemma preserves_lift {A} (o : outcome A) : preserves_settings (lift o).
Proof. intros w. reflexivity. Qed.
Lemma preserves_get_settings : preserves_settings get_settings.
Proof. intros w. reflexivity. Qed.
Lemma logs_only_ret {A} P (a : A) : logs_only P (ret a).
Proof. intros w ev H. now left. Qed.
Lemma logs_only_raise {A} P e : logs_only P (@raise A e).
Proof. intros w ev H. now left. Qed.
Lemma logs_only_lift {A} P (o : outcome A) : logs_only P (lift o).
Proof. intros w ev H. now left. Qed.
Lemma logs_only_get_settings P : logs_only P get_settings.
Proof. intros w ev H. now left. Qed.

Lemma preserves_get_collections : preserves_settings client_get_collections.
Proof. intros w. unfold client_get_collections. now destruct (w_qdrant_up w). Qed.

Lemma logs_only_get_collections : logs_only no_query client_get_collections.
Proof.
  intros w ev. unfold client_get_collections.
  destruct (w_qdrant_up w); simpl; intros [<- | H]; (now right) || (now left).
Qed.

Lemma preserves_create_collection n sz d : preserves_settings (client_create_collection n sz d).
Proof.
  intros w. unfold client_create_collection.
  destruct (w_qdrant_up w); simpl; [destruct (find_collection n (w_collections w)) |];
    reflexivity.
Qed.

Lemma logs_only_create_collection n sz d : logs_only no_query (client_create_collection n sz d).
Proof.
  intros w ev. unfold client_create_collection.
  destruct (w_qdrant_up w); simpl; [destruct (find_collection n (w_collections w)) |];
    simpl; intros [<- | H]; (now right) || (now left).
Qed.

Lemma preserves_voyage_post t i : preserves_settings (voyage_post t i).
Proof. intros w. unfold voyage_post. now destruct (w_voyage w). Qed.

Lemma logs_only_voyage_post P t i : logs_only P (voyage_post t i).
Proof. intros w ev. unfold voyage_post. destruct (w_voyage w); simpl; now left. Qed.

Lemma preserves_retry_from {A} (f : M A) :
  preserves_settings f -> forall left attempt, preserves_settings (retry_from f attempt left).
Proof.
  intros Hf left. induction left as [|left IH]; intros attempt w; simpl;
    specialize (Hf w); destruct (f w) as [[a|e] w0]; simpl in *; try exact Hf.
  rewrite IH. exact Hf.
Qed.

Lemma logs_only_retry_from {A} P (f : M A) :
  preserves_settings f -> logs_only P f ->
  forall left attempt, logs_only P (retry_from f attempt left).
Proof.
  intros Hs Hf left. induction left as [|left IH]; intros attempt w ev; simpl;
    specialize (Hs w); specialize (Hf w ev);
    destruct (f w) as [[a|e] w0]; simpl in *; try exact Hf.
  intros H. destruct (IH _ _ _ H) as [H1 | H1]; [exact (Hf H1) | right; simpl in H1; congruence].
Qed.

#[local] Hint Resolve preserves_bind preserves_catch preserves_ret preserves_raise
  preserves_lift preserves_get_settings preserves_get_collections
  preserves_create_collection preserves_voyage_post preserves_retry_from : qlog.
#[local] Hint Resolve logs_only_bind logs_only_catch logs_only_ret logs_only_raise
  logs_only_lift logs_only_get_settings logs_only_get_collections
  logs_only_create_collection logs_only_voyage_post logs_only_retry_from : qlog.

Lemma preserves_ensure_collection vs : preserves_settings (ensure_collection vs).
Proof.
  unfold ensure_collection. apply preserves_catch; [| intros; apply preserves_raise].
  apply preserves_bind; [apply preserves_get_collections |].
  intros names. destruct (existsb _ names); auto with qlog.
Qed.

Lemma logs_only_ensure_collection vs : logs_only no_query (ensure_collection vs).
Proof.
  unfold ensure_collection.
  apply logs_only_catch; [| | intros; apply logs_only_raise].
  - apply preserves_bind; [apply preserves_get_collections |].
    intros names. destruct (existsb _ names); auto with qlog.
  - apply logs_only_bind; [apply preserves_get_collections | apply logs_only_get_collections |].
    intros names. destruct (existsb _ names); auto with qlog.
Qed.

Lemma preserves_vector_store_new n d : preserves_settings (vector_store_new n d).
Proof.
  unfold vector_store_new. apply preserves_bind; [apply preserves_get_settings |].
  intros s. apply preserves_bind; [apply preserves_ensure_collection |]. auto with qlog.
Qed.

Lemma logs_only_vector_store_new n d : logs_only no_query (vector_store_new n d).
Proof.
  unfold vector_store_new.
  apply logs_only_bind; [apply preserves_get_settings | apply logs_only_get_settings |].
  intros s. apply logs_only_bind;
    [apply preserves_ensure_collection | apply logs_only_ensure_collection |].
  auto with qlog.
Qed.

Lemma preserves_get_vector_store : preserves_settings get_vector_store.
Proof.
  intros w. unfold get_vector_store. destruct (w_vector_store w); [reflexivity |].
  refine (preserves_bind _ _ (preserves_vector_store_new _ _) _ w).
  intros vs w1. reflexivity.
Qed.

Lemma logs_only_get_vector_store : logs_only no_query get_vector_store.
Proof.
  intros w ev. unfold get_vector_store. destruct (w_vector_store w); [now left |].
  refine (logs_only_bind _ _ _ (preserves_vector_store_new _ _)
            (logs_only_vector_store_new _ _) _ w ev).
  intros vs w1 ev' H. now left.
Qed.

Lemma preserves_call_api t i : preserves_settings (call_api t i).
Proof.
  unfold call_api, retry_stop_after_attempt. apply preserves_retry_from.
  unfold call_api_body. apply preserves_catch; [apply preserves_voyage_post |].
  intros []; auto with qlog.
Qed.

Lemma logs_only_call_api P t i : logs_only P (call_api t i).
Proof.
  unfold call_api, retry_stop_after_attempt.
  apply logs_only_retry_from.
  - unfold call_api_body. apply preserves_catch; [apply preserves_voyage_post |].
    intros []; auto with qlog.
  - unfold call_api_body. apply logs_only_catch;
      [apply preserves_voyage_post | apply logs_only_voyage_post |].
    intros []; auto with qlog.
Qed.

Lemma preserves_embed_query t : preserves_settings (embed_query t).
Proof.
  unfold embed_query. apply preserves_bind; [apply preserves_call_api |].
  intros [|v rs]; unfold first_result; auto with qlog.
Qed.

Lemma logs_only_embed_query P t : logs_only P (embed_query t).
Proof.
  unfold embed_query. apply logs_only_bind;
    [apply preserves_call_api | apply logs_only_call_api |].
  intros [|v rs]; unfold first_result; auto with qlog.
Qed.

Lemma preserves_get_embedding_service : preserves_settings get_embedding_service.
Proof.
  unfold get_embedding_service. apply preserves_bind; [apply preserves_get_settings |].
  intros s. destruct (String.eqb _ _); auto with qlog.
Qed.

Lemma logs_only_get_embedding_service P : logs_only P get_embedding_service.
Proof.
  unfold get_embedding_service.
  apply logs_only_bind; [apply preserves_get_settings | apply logs_only_get_settings |].
  intros s. destruct (String.eqb _ _); auto with qlog.
Qed.

Lemma logs_only_weaken {A} (P Q : Settings -> QEvent -> Prop) (m : M A) :
  (forall s ev, P s ev -> Q s ev) -> logs_only P m -> logs_only Q m.
Proof.
  intros HPQ Hm w ev H. destruct (Hm w ev H) as [H1 | H1]; [now left | right; auto].
Qed.

Definition search_event (vs : VectorStore) (top_k : option Z) (score_threshold : option Q)
  (s : Settings) (ev : QEvent) : Prop :=
  ev = QQueryPoints (vs_collection vs) (or_int top_k (rag_top_k s))
         (or_float score_threshold (rag_score_threshold s)).

Lemma preserves_search vs emb tk thr : preserves_settings (search vs emb tk thr).
Proof.
  intros w. unfold search, get_settings, bind, catch, client_query_points, on_collection,
    raise, ret. simpl.
  destruct (w_qdrant_up w); simpl; [destruct (find_collection _ _) |]; reflexivity.
Qed.

Lemma logs_only_search vs emb tk thr : logs_only (search_event vs tk thr) (search vs emb tk thr).
Proof.
  intros w ev. unfold search, get_settings, bind, catch, client_query_points, on_collection,
    raise, ret, search_event. simpl.
  destruct (w_qdrant_up w); simpl; [destruct (find_collection _ _); simpl |];
    intros [<- | H]; (now right) || (now left).
Qed.

Lemma logs_only_search_texts vs emb tk thr :
  logs_only (search_event vs tk thr) (search_texts vs emb tk thr).
Proof.
  unfold search_texts. apply logs_only_bind;
    [apply preserves_search | apply logs_only_search | intros; apply logs_only_ret].
Qed.

Lemma or_int_twice tk d : or_int (Some (or_int tk d)) d = or_int tk d.
Proof.
  destruct tk as [v|]; simpl.
  - destruct (Z.eqb v 0) eqn:E; simpl.
    + destruct (Z.eqb d 0) eqn:Ed; [apply Z.eqb_eq in Ed; now subst | reflexivity].
    + now rewrite E.
  - destruct (Z.eqb d 0) eqn:Ed; [apply Z.eqb_eq in Ed; now subst | reflexivity].
Qed.

Lemma or_float_twice thr d : or_float (Some (or_float thr d)) d = or_float thr d.
Proof.
  destruct thr as [v|]; simpl.
  - destruct (Qeq_bool v 0) eqn:E; simpl; [destruct (Qeq_bool d 0); reflexivity | now rewrite E].
  - destruct (Qeq_bool d 0); reflexivity.
Qed.

(** Every Qdrant query issued by [retrieve_similar_ideas] uses the
    truthiness defaults [top_k or rag_top_k] and
    [score_threshold or rag_score_threshold]. *)
Lemma retrieve_logs text tk thr :
  logs_only (fun s ev => is_query_event ev = false \/
               exists name, ev = QQueryPoints name (or_int tk (rag_top_k s))
                                   (or_float thr (rag_score_threshold s)))
    (retrieve_similar_ideas text tk thr).
Proof.
  intros w ev. unfold retrieve_similar_ideas.
  rewrite (bind_ok get_settings _ w (w_settings w) w eq_refl).
  set (S0 := w_settings w).
  set (P := fun s ev =>
              is_query_event ev = false \/
              exists name, ev = QQueryPoints name
                                  (or_int (Some (or_int tk (rag_top_k S0))) (rag_top_k s))
                                  (or_float (Some (or_float thr (rag_score_threshold S0)))
                                     (rag_score_threshold s))).
  intros H.
  assert (Hl : logs_only P
     (get_embedding_service ;;;
      vector_store <- get_vector_store ;;
      embedding <- embed_query text ;;
      search_texts vector_store embedding (Some (or_int tk (rag_top_k S0)))
        (Some (or_float thr (rag_score_threshold S0))))).
  { apply logs_only_bind;
      [apply preserves_get_embedding_service | apply logs_only_get_embedding_service |].
    intros _. apply logs_only_bind; [apply preserves_get_vector_store | |].
    - apply (logs_only_weaken no_query); [intros s e' He; now left |].
      apply logs_only_get_vector_store.
    - intros vs. apply logs_only_bind;
        [apply preserves_embed_query | apply logs_only_embed_query |].
      intros emb. apply (logs_only_weaken (search_event vs
        (Some (or_int tk (rag_top_k S0))) (Some (or_float thr (rag_score_threshold S0)))));
        [| apply logs_only_search_texts].
      intros s e' He. right. exists (vs_collection vs). exact He. }
  destruct (Hl w ev H) as [H1 | [H1 | [name H1]]]; [now left | right; now left |].
  right. right. exists name. fold S0 in H1. rewrite or_int_twice, or_float_twice in H1.
  exact H1.
Qed.

Lemma or_int_zero tk d : or_int tk d = 0%Z -> d = 0%Z.
Proof.
  destruct tk as [v|]; simpl; [| auto].
  destruct (Z.eqb v 0) eqn:E; [auto |]. intros ->. discriminate.
Qed.

Lemma or_float_zero thr d : (or_float thr d == 0)%Q -> (d == 0)%Q.
Proof.
  destruct thr as [v|]; simpl; [| auto].
  destruct (Qeq_bool v 0) eqn:E; [auto |].
  intros Hv. apply Qeq_bool_iff in Hv. congruence.
Qed.

Lemma or_int_given_zero d : or_int (Some 0%Z) d = d.
Proof. reflexivity. Qed.

Lemma or_float_given_zero q d : (q == 0)%Q -> or_float (Some q) d = d.
Proof. intros Hq. simpl. apply Qeq_bool_iff in Hq. now rewrite Hq. Qed.

(** C10: a [top_k] of 0 or a [score_threshold] of 0.0 passed to
    [retrieve_similar_ideas] or [QdrantVectorStore.search] is falsy and
    is replaced by [rag_top_k] / [rag_score_threshold], each one on its
    own, whatever the other argument is: every query these calls send
    has the configured default as its limit when [top_k] is 0, and as its
    threshold when [score_threshold] is 0.0.  So a query with limit 0 (or
    threshold 0) is sent only when the configured default is itself 0. *)
Theorem zero_top_k_and_threshold_use_defaults :
  (forall text tk thr w ev,
     In ev (w_q_log (snd (retrieve_similar_ideas text tk thr w))) ->
     In ev (w_q_log w) \/ is_query_event ev = false \/
     exists name lim t, ev = QQueryPoints name lim t /\
       (tk = Some 0%Z -> lim = rag_top_k (w_settings w)) /\
       (forall q, thr = Some q -> (q == 0)%Q -> t = rag_score_threshold (w_settings w))) /\
  (forall vs emb tk thr w ev,
     In ev (w_q_log (snd (search vs emb tk thr w))) ->
     In ev (w_q_log w) \/
     exists lim t, ev = QQueryPoints (vs_collection vs) lim t /\
       (tk = Some 0%Z -> lim = rag_top_k (w_settings w)) /\
       (forall q, thr = Some q -> (q == 0)%Q -> t = rag_score_threshold (w_settings w))) /\
  (forall text tk thr w name lim t,
     In (QQueryPoints name lim t) (w_q_log (snd (retrieve_similar_ideas text tk thr w))) ->
     ~ In (QQueryPoints name lim t) (w_q_log w) ->
     (lim = 0%Z -> rag_top_k (w_settings w) = 0%Z) /\
     ((t == 0)%Q -> (rag_score_threshold (w_settings w) == 0)%Q)).
Proof.
  split; [| split].
  - intros text tk thr w ev H.
    destruct (retrieve_logs text tk thr w ev H) as [H1 | [H1 | [name H1]]];
      [now left | right; now left |].
    right. right. exists name, (or_int tk (rag_top_k (w_settings w))),
      (or_float thr (rag_score_threshold (w_settings w))).
    split; [exact H1 |]. split.
    + intros ->. apply or_int_given_zero.
    + intros q -> Hq. now apply or_float_given_zero.
  - intros vs emb tk thr w ev H.
    destruct (logs_only_search vs emb tk thr w ev H) as [H1 | H1]; [now left |].
    right. exists (or_int tk (rag_top_k (w_settings w))),
      (or_float thr (rag_score_threshold (w_settings w))).
    split; [exact H1 |]. split.
    + intros ->. apply or_int_given_zero.
    + intros q -> Hq. now apply or_float_given_zero.
  - intros text tk thr w name lim t H Hnew.
    destruct (retrieve_logs text tk thr w _ H) as [H1 | [H1 | [name' H1]]];
      [contradiction | discriminate |].
    injection H1 as _ Hlim Ht. subst lim t. split.
    + apply or_int_zero.
    + apply or_float_zero.
Qed.

(** ** Which exceptions a computation can raise *)

Definition raises_only {A} (P : exn -> Prop) (m : M A) : Prop :=
  forall w e w', m w = (Raise e, w') -> P e.

Lemma raises_only_ret {A} P (a : A) : raises_only P (ret a).
Proof. intros w e w' H. discriminate H. Qed.

Lemma raises_only_raise {A} (P : exn -> Prop) e : P e -> raises_only P (@raise A e).
Proof. intros He w e' w' H. injection H as <- _. exact He. Qed.

Lemma raises_only_get_settings P : raises_only P get_settings.
Proof. intros w e w' H. discriminate H. Qed.

Lemma raises_only_bind {A B} P (m : M A) (k : A -> M B) :
  raises_only P m -> (forall a, raises_only P (k a)) -> raises_only P (bind m k).
Proof.
  intros Hm Hk w e w' H. unfold bind in H.
  destruct (m w) as [[a|e0] w1] eqn:E.
  - exact (Hk a _ _ _ H).
  - injection H as <- _. exact (Hm _ _ _ E).
Qed.

Lemma raises_only_catch {A} P (m : M A) (h : exn -> M A) :
  (forall e, raises_only P (h e)) -> raises_only P (catch m h).
Proof.
  intros Hh w e w' H. unfold catch in H.
  destruct (m w) as [[a|e0] w1] eqn:E; [discriminate H | exact (Hh e0 _ _ _ H)].
Qed.

Lemma raises_only_weaken {A} (P Q : exn -> Prop) (m : M A) :
  (forall e, P e -> Q e) -> raises_only P m -> raises_only Q m.
Proof. intros HPQ Hm w e w' H. exact (HPQ _ (Hm _ _ _ H)). Qed.

Create HintDb raises.
#[local] Hint Resolve raises_only_ret raises_only_get_settings raises_only_bind
  raises_only_catch : raises.

Lemma raises_only_ensure_collection vs : raises_only (eq VectorStoreError) (ensure_collection vs).
Proof. apply raises_only_catch. intros e. now apply raises_only_raise. Qed.

Lemma raises_only_vector_store_new n d :
  raises_only (eq VectorStoreError) (vector_store_new n d).
Proof.
  unfold vector_store_new. apply raises_only_bind; [apply raises_only_get_settings |].
  intros s. apply raises_only_bind; [apply raises_only_ensure_collection | auto with raises].
Qed.

Lemma raises_only_get_vector_store : raises_only (eq VectorStoreError) get_vector_store.
Proof.
  intros w e w' H. unfold get_vector_store in H. destruct (w_vector_store w); [discriminate H |].
  refine (raises_only_bind _ _ _ (raises_only_vector_store_new _ _) _ w e w' H).
  intros vs w1 e1 w1' H1. discriminate H1.
Qed.

Lemma raises_only_get_embedding_service : raises_only (eq EmbeddingError) get_embedding_service.
Proof.
  unfold get_embedding_service. apply raises_only_bind; [apply raises_only_get_settings |].
  intros s. destruct (String.eqb _ _); [now apply raises_only_raise | apply raises_only_ret].
Qed.

Lemma raises_only_count vs : raises_only (fun _ => False) (count vs).
Proof. apply raises_only_catch. intros. apply raises_only_ret. Qed.

Lemma raises_only_health_check_store vs : raises_only (fun _ => False) (health_check_store vs).
Proof. apply raises_only_catch. intros. apply raises_only_ret. Qed.

Lemma raises_only_get_all vs limit : raises_only (eq VectorStoreError) (get_all vs limit).
Proof. apply raises_only_catch. intros e. now apply raises_only_raise. Qed.

Lemma raises_only_delete vs doc_id : raises_only (eq VectorStoreError) (delete vs doc_id).
Proof. apply raises_only_catch. intros e. now apply raises_only_raise. Qed.

Lemma raises_only_read_prompt path : raises_only (eq OSError) (read_prompt path).
Proof.
  intros w e w' H. unfold read_prompt, catch, bind, read_text, ret, raise in H.
  destruct (dict_get (w_files w) path) as [[c|]|]; simpl in H; try discriminate H.
  injection H as He _. exact He.
Qed.

Lemma raises_only_extract_tasks json_loads thought :
  raises_only (eq OSError) (extract_tasks json_loads thought).
Proof.
  unfold extract_tasks. apply raises_only_bind; [apply raises_only_read_prompt |].
  intros [p|]; [| apply raises_only_ret].
  apply raises_only_catch. intros []; apply raises_only_ret.
Qed.

Lemma vector_store_route_code {A} (P : exn -> Prop) (m : M A) ok w :
  raises_only P m -> (forall e, P e -> is_rag_exception e = true) ->
  match fst (vector_store_route m ok w) with
  | HttpOk body => exists a w', m w = (Ok a, w') /\ body = ok a
  | HttpError code _ => code = 503%Z
  end.
Proof.
  intros Hm HP. unfold vector_store_route.
  destruct (m w) as [[a|e] w'] eqn:E; simpl.
  - exists a, w'. split; reflexivity.
  - rewrite (HP e (Hm _ _ _ E)). reflexivity.
Qed.

Lemma vector_store_error_rag e : VectorStoreError = e -> is_rag_exception e = true.
Proof. intros <-. reflexivity. Qed.

Lemma get_all_length vs limit w items w' :
  get_all vs limit w = (Ok items, w') -> (length items <= Z.to_nat limit)%nat.
Proof.
  unfold get_all, catch, bind, client_scroll, on_collection, raise, ret.
  destruct (w_qdrant_up w); simpl; [| discriminate].
  destruct (find_collection _ _); simpl; [| discriminate].
  intros H. injection H as <- _. rewrite length_map. apply firstn_le_length.
Qed.

(** X1: GET /ideas/memory/stats answers with the statistics or with 503:
    [get_memory_stats] raises only RAGExceptions (VectorStoreError from
    building the store, EmbeddingError without an API key; [count] and
    [health_check] swallow their errors), so the route never ends in 500. *)
Theorem get_stats_ok_or_503 (w : World) :
  match fst (get_stats w) with
  | HttpOk body => exists stats w', get_memory_stats w = (Ok stats, w') /\ body = PDict stats
  | HttpError code _ => code = 503%Z
  end.
Proof.
  apply (vector_store_route_code (fun e => e = VectorStoreError \/ e = EmbeddingError)).
  - unfold get_memory_stats.
    apply raises_only_bind;
      [apply (raises_only_weaken _ _ _ (fun e H => or_introl (eq_sym H)) raises_only_get_vector_store) |].
    intros vs. apply raises_only_bind;
      [apply (raises_only_weaken _ _ _ (fun e H => or_intror (eq_sym H))
                raises_only_get_embedding_service) |].
    intros _. apply raises_only_bind; [apply raises_only_get_settings |].
    intros s. apply raises_only_bind;
      [apply (raises_only_weaken _ _ _ (fun e (H : False) => False_ind _ H) (raises_only_count vs)) |].
    intros total. apply raises_only_bind;
      [apply (raises_only_weaken _ _ _ (fun e (H : False) => False_ind _ H)
                (raises_only_health_check_store vs)) |].
    intros. apply raises_only_ret.
  - intros e [-> | ->]; reflexivity.
Qed.

(** X2: GET /ideas/memory lists at most 100 memories, with "count" equal
    to the number listed; any failure answers 503, never 500. *)
Theorem read_memory_at_most_100 (w : World) :
  match fst (read_memory w) with
  | HttpOk body =>
      exists memories, body = PDict [("count", PInt (Z.of_nat (length memories)));
                                     ("memories", PList (map memory_item_value memories))] /\
                       (length memories <= 100)%nat
  | HttpError code _ => code = 503%Z
  end.
Proof.
  assert (Hr : raises_only (eq VectorStoreError) get_all_memories).
  { unfold get_all_memories. apply raises_only_bind;
      [apply raises_only_get_vector_store | intros; apply raises_only_get_all]. }
  pose proof (vector_store_route_code _ get_all_memories
    (fun memories => PDict [("count", PInt (Z.of_nat (length memories)));
                            ("memories", PList (map memory_item_value memories))]) w Hr
    vector_store_error_rag) as H.
  unfold read_memory. destruct (fst _) as [body|code d]; [| exact H].
  destruct H as [ms [w' [Hm ->]]]. exists ms. split; [reflexivity |].
  unfold get_all_memories, bind in Hm.
  destruct (get_vector_store w) as [[vs|e] w1]; [| discriminate Hm].
  exact (get_all_length _ _ _ _ _ Hm).
Qed.

(** X3: DELETE /ideas/memory/{doc_id} answers either
    {"success": true, "deleted_id": doc_id} or 503: the reported success
    is never false. *)
Theorem remove_memory_success_or_503 (doc_id : string) (w : World) :
  match fst (remove_memory doc_id w) with
  | HttpOk body => body = PDict [("success", PBool true); ("deleted_id", PStr doc_id)]
  | HttpError code _ => code = 503%Z
  end.
Proof.
  assert (Hr : raises_only (eq VectorStoreError) (delete_idea doc_id)).
  { unfold delete_idea. apply raises_only_bind;
      [apply raises_only_get_vector_store | intros; apply raises_only_delete]. }
  pose proof (vector_store_route_code _ (delete_idea doc_id)
    (fun success => PDict [("success", PBool success); ("deleted_id", PStr doc_id)]) w Hr
    vector_store_error_rag) as H.
  unfold remove_memory. destruct (fst _) as [body|code d]; [| exact H].
  destruct H as [b [w' [Hm ->]]].
  unfold delete_idea, bind in Hm.
  destruct (get_vector_store w) as [[vs|e] w1]; [| discriminate Hm].
  pose proof (delete_outcome vs doc_id w1) as Hd. rewrite Hm in Hd.
  destruct Hd as [-> _]. reflexivity.
Qed.

(** X4: [extract_tasks] raises only OSError (an unreadable prompt file);
    so POST /tasks/extract never answers 503: its [except RAGException]
    branch cannot be reached. *)
Theorem extract_tasks_endpoint_never_503 (json_loads : string -> option pyval)
  (content : string) (w : World) :
  (forall e w', extract_tasks json_loads content w = (Raise e, w') -> e = OSError) /\
  (forall detail, fst (extract_tasks_endpoint json_loads content w) <> HttpError 503 detail).
Proof.
  split.
  - intros e w' H. symmetry. exact (raises_only_extract_tasks json_loads content w e w' H).
  - intros detail. unfold extract_tasks_endpoint, bind.
    destruct (extract_tasks json_loads content w) as [[tasks|e] w1] eqn:E.
    + unfold lift, ret. destruct tasks; cbn; intros Hc; inversion Hc.
    + pose proof (raises_only_extract_tasks json_loads content w e w1 E) as He.
      cbv beta in He. subst e. cbn. intros Hc; inversion Hc.
Qed.

(** ** The vector-store singleton and the health checks *)

Lemma vector_store_new_keeps_singleton n d w :
  w_vector_store (snd (vector_store_new n d w)) = w_vector_store w.
Proof.
  unfold vector_store_new, ensure_collection, get_settings, bind, catch, client_get_collections,
    client_create_collection, raise, ret.
  destruct (w_qdrant_up w) eqn:Hup; simpl; [| reflexivity].
  destruct (existsb _ _); simpl; [reflexivity |].
  rewrite Hup. simpl. destruct (find_collection _ _); reflexivity.
Qed.

(** X5: [get_vector_store] caches the store it builds: after a call that
    returns a store, the singleton holds it and the next call returns the
    same store without any request; a failed construction leaves the
    singleton unset, so the next call tries again. *)
Theorem get_vector_store_cached (w : World) (vs : VectorStore) (w1 : World)
  (H : get_vector_store w = (Ok vs, w1)) :
  w_vector_store w1 = Some vs /\ get_vector_store w1 = (Ok vs, w1) /\
  (forall w2 e w3, w_vector_store w2 = None -> get_vector_store w2 = (Raise e, w3) ->
     w_vector_store w3 = None).
Proof.
  assert (Hc : forall w, fst (get_vector_store w) = Ok vs ->
                 w_vector_store (snd (get_vector_store w)) = Some vs).
  { intros w0. unfold get_vector_store. destruct (w_vector_store w0) as [vs0|] eqn:E0.
    - simpl. intros Hv. injection Hv as ->. exact E0.
    - unfold bind. destruct (vector_store_new _ _ w0) as [[vs0|e] w4]; simpl; [| discriminate].
      intros Hv. injection Hv as ->. reflexivity. }
  assert (H1 : w_vector_store w1 = Some vs).
  { pose proof (Hc w) as Hw. rewrite H in Hw. exact (Hw eq_refl). }
  split; [exact H1 |]. split.
  - unfold get_vector_store. rewrite H1. reflexivity.
  - intros w2 e w3 Hn H3. unfold get_vector_store in H3. rewrite Hn in H3.
    unfold bind in H3.
    pose proof (vector_store_new_keeps_singleton
                  (Some (qdrant_collection_name (w_settings w2)))
                  (Some (active_embedding_dim (w_settings w2))) w2) as Hk.
    destruct (vector_store_new _ _ w2) as [[vs0|e0] w4]; simpl in *; [discriminate H3 |].
    injection H3 as _ <-. rewrite Hk. exact Hn.
Qed.

Lemma get_vector_store_cached_witness :
  w_vector_store (snd (get_vector_store (demo_world [] []))) = Some demo_store /\
  get_vector_store (snd (get_vector_store (demo_world [] []))) =
    (Ok demo_store, snd (get_vector_store (demo_world [] []))) /\
  (forall w2 e w3, w_vector_store w2 = None -> get_vector_store w2 = (Raise e, w3) ->
     w_vector_store w3 = None).
Proof.
  apply (get_vector_store_cached (demo_world [] []) demo_store
           (snd (get_vector_store (demo_world [] [])))).
  vm_compute. reflexivity.
Defined.

Lemma find_collection_absent name cs :
  ~ In name (map qc_name cs) -> find_collection name cs = None.
Proof.
  induction cs as [|c cs IH]; simpl; [reflexivity |].
  intros Hn. destruct (String.eqb (qc_name c) name) eqn:E.
  - apply String.eqb_eq in E. exfalso. apply Hn. now left.
  - apply IH. intros Hi. apply Hn. now right.
Qed.

Lemma existsb_absent name names :
  ~ In name names -> existsb (String.eqb name) names = false.
Proof.
  intros Hn. destruct (existsb (String.eqb name) names) eqn:E; [| reflexivity].
  apply existsb_exists in E as [x [Hx Heq]]. apply String.eqb_eq in Heq. subst. contradiction.
Qed.

Lemma or_str_same x : or_str (Some x) x = x.
Proof.
  simpl. destruct (String.eqb x EmptyString) eqn:E; [apply String.eqb_eq in E; now subst | reflexivity].
Qed.

Lemma or_int_same x : or_int (Some x) x = x.
Proof.
  simpl. destruct (Z.eqb x 0) eqn:E; [apply Z.eqb_eq in E; now subst | reflexivity].
Qed.

(** X6: the first [get_vector_store] call against a reachable server
    without the configured collection creates it, empty, with the
    configured name, the active embedding dimension and cosine distance,
    and caches the store built for it. *)
Theorem get_vector_store_creates_collection (w : World)
  (Hnone : w_vector_store w = None) (Hup : w_qdrant_up w = true)
  (Habs : ~ In (qdrant_collection_name (w_settings w)) (map qc_name (w_collections w))) :
  let vs := {| vs_collection := qdrant_collection_name (w_settings w);
               vs_dim := active_embedding_dim (w_settings w) |} in
  fst (get_vector_store w) = Ok vs /\
  w_collections (snd (get_vector_store w)) =
    (w_collections w ++ [{| qc_name := qdrant_collection_name (w_settings w);
                            qc_size := active_embedding_dim (w_settings w);
                            qc_distance := Cosine; qc_points := [] |}])%list /\
  w_vector_store (snd (get_vector_store w)) = Some vs.
Proof.
  unfold get_vector_store. rewrite Hnone.
  unfold vector_store_new, ensure_collection, get_settings, bind, catch, client_get_collections,
    client_create_collection, raise, ret. cbv beta iota zeta.
  rewrite or_str_same, or_int_same. simpl. rewrite Hup. simpl.
  rewrite (existsb_absent _ _ Habs). simpl. rewrite Hup. simpl.
  rewrite (find_collection_absent _ _ Habs). simpl.
  repeat split.
Qed.

Lemma get_vector_store_creates_collection_witness :
  let w := mkWorld default_settings [] [] [] [] [] true [] [] None 0 "2026-01-01T00:00:00+00:00" in
  fst (get_vector_store w) = Ok demo_store /\
  w_collections (snd (get_vector_store w)) =
    [{| qc_name := "ideas"; qc_size := 1024; qc_distance := Cosine; qc_points := [] |}] /\
  w_vector_store (snd (get_vector_store w)) = Some demo_store.
Proof.
  apply (get_vector_store_creates_collection
           (mkWorld default_settings [] [] [] [] [] true [] [] None 0 "2026-01-01T00:00:00+00:00"));
    [reflexivity | reflexivity | simpl; tauto].
Defined.

(** X7: [count] and [health_check] never raise, and they agree: when
    [health_check] reports "unhealthy" (server unreachable or collection
    missing), [count] reports 0; otherwise [count] equals the reported
    "points_count". *)
Theorem count_agrees_with_health_check (vs : VectorStore) (w : World) :
  exists n h,
    fst (count vs w) = Ok n /\ fst (health_check_store vs w) = Ok h /\
    ((dict_get h "status" = Some (PStr "unhealthy") /\ n = 0%Z) \/
     (dict_get h "status" = Some (PStr "healthy") /\ dict_get h "points_count" = Some (PInt n))).
Proof.
  unfold count, health_check_store, catch, bind, client_get_collection, on_collection, ret.
  destruct (w_qdrant_up w); simpl; [destruct (find_collection _ _) |];
    simpl; eexists; eexists; (split; [reflexivity |]); (split; [reflexivity |]);
    [right | left | left]; split; reflexivity.
Qed.

(** X8: GET /health never fails; its "status" is "ok" exactly when the
    vector store is obtained and its collection answers on a reachable
    server, and "degraded" otherwise. *)
Theorem main_health_check_status (w : World) :
  exists d,
    fst (main_health_check w) = Ok d /\
    (dict_get d "status" = Some (PStr "ok") \/ dict_get d "status" = Some (PStr "degraded")) /\
    (dict_get d "status" = Some (PStr "ok") <->
     exists vs w1, get_vector_store w = (Ok vs, w1) /\ w_qdrant_up w1 = true /\
                   find_collection (vs_collection vs) (w_collections w1) <> None).
Proof.
  unfold main_health_check, get_settings, bind, catch.
  destruct (get_vector_store w) as [[vs|e] w1] eqn:Hg.
  - unfold health_check_store, catch, bind, client_get_collection, on_collection, ret.
    destruct (w_qdrant_up w1) eqn:Hup; simpl;
      [destruct (find_collection (vs_collection vs) (w_collections w1)) as [c|] eqn:Hf |];
      simpl; eexists; (split; [reflexivity |]); simpl.
    + split; [now left |]. split; [intros _; exists vs, w1; rewrite Hf; repeat split; congruence |].
      reflexivity.
    + split; [now right |]. split; [discriminate |].
      intros [vs' [w1' [Hg' [_ Hf']]]]. injection Hg' as <- <-. contradiction.
    + split; [now right |]. split; [discriminate |].
      intros [vs' [w1' [Hg' [Hup' _]]]]. injection Hg' as <- <-. congruence.
  - simpl. eexists. split; [reflexivity |]. simpl.
    split; [now right |]. split; [discriminate |].
    intros [vs' [w1' [Hg' _]]]. discriminate Hg'.
Qed.

(** ** Search results *)

Definition score_desc (a b : QPoint * Q) : Prop := (snd b <= snd a)%Q.

Lemma in_insert_by_score x h l : In x (insert_by_score h l) <-> In x (h :: l).
Proof.
  induction l as [|h' l IH]; simpl; [tauto |].
  destruct (negb (Qle_bool (snd h) (snd h'))); simpl; [tauto |].
  rewrite IH. simpl. tauto.
Qed.

Lemma in_sort_by_score x l : In x (sort_by_score l) <-> In x l.
Proof.
  unfold sort_by_score. induction l as [|h l IH]; simpl; [tauto |].
  rewrite in_insert_by_score. simpl. rewrite IH. tauto.
Qed.

Lemma hdrel_insert_by_score a h l :
  score_desc a h -> HdRel score_desc a l -> HdRel score_desc a (insert_by_score h l).
Proof.
  intros Hah Hl. destruct l as [|h' l]; simpl; [constructor; exact Hah |].
  destruct (negb (Qle_bool (snd h) (snd h'))); constructor; [exact Hah |].
  inversion Hl; assumption.
Qed.

Lemma sorted_insert_by_score h l : Sorted score_desc l -> Sorted score_desc (insert_by_score h l).
Proof.
  induction l as [|h' l IH]; simpl; intros Hs; [repeat constructor |].
  destruct (Qle_bool (snd h) (snd h')) eqn:E; simpl.
  - inversion Hs; subst. constructor; [exact (IH H1) |].
    apply hdrel_insert_by_score; [| exact H2].
    unfold score_desc. apply Qle_bool_iff. exact E.
  - constructor; [exact Hs |]. constructor. unfold score_desc.
    apply Qlt_le_weak, Qnot_le_lt. intros Hle. apply Qle_bool_iff in Hle. congruence.
Qed.

Lemma sorted_sort_by_score l : Sorted score_desc (sort_by_score l).
Proof.
  unfold sort_by_score. induction l as [|h l IH]; simpl; [constructor |].
  apply sorted_insert_by_score, IH.
Qed.

Lemma sorted_firstn {A} (R : A -> A -> Prop) n l : Sorted R l -> Sorted R (firstn n l).
Proof.
  revert l. induction n as [|n IH]; intros l Hs; [constructor |].
  destruct l as [|x l]; simpl; [constructor |].
  inversion Hs; subst. constructor; [exact (IH _ H1) |].
  destruct n as [|n]; [constructor |]. destruct l as [|y l]; simpl; [constructor |].
  inversion H2; subst. constructor. assumption.
Qed.

Lemma sorted_map {A B} (R : B -> B -> Prop) (f : A -> B) l :
  Sorted (fun a b => R (f a) (f b)) l -> Sorted R (map f l).
Proof.
  induction 1 as [|x l Hs IH Hd]; simpl; constructor; [exact IH |].
  destruct Hd; simpl; constructor. assumption.
Qed.

Lemma payload_metadata_no_text payload : dict_get (payload_metadata payload) "text" = None.
Proof.
  unfold payload_metadata. induction payload as [|[k v] p IH]; [reflexivity |].
  cbn -[String.eqb]. destruct (String.eqb k "text") eqn:E; cbn -[String.eqb]; [exact IH |].
  rewrite String.eqb_sym, E. exact IH.
Qed.

(** X9: what [QdrantVectorStore.search] returns: at most [top_k or
    rag_top_k] hits, each scoring at least [score_threshold or
    rag_score_threshold], best score first, and no hit's metadata carries
    the "text" key (it is split off as the hit's text). *)
Theorem search_results_bounded_sorted (vs : VectorStore) (emb : list Q) (tk : option Z)
  (thr : option Q) (w : World) (hits : list SearchHit) (w' : World)
  (H : search vs emb tk thr w = (Ok hits, w')) :
  (length hits <= Z.to_nat (or_int tk (rag_top_k (w_settings w))))%nat /\
  Forall (fun h => (or_float thr (rag_score_threshold (w_settings w)) <= sh_score h)%Q) hits /\
  Sorted (fun a b => (sh_score b <= sh_score a)%Q) hits /\
  Forall (fun h => dict_get (sh_metadata h) "text" = None) hits.
Proof.
  unfold search, get_settings, bind, catch, client_query_points, on_collection, ret, raise in H.
  simpl in H. destruct (w_qdrant_up w); simpl in H; [| discriminate H].
  destruct (find_collection _ _) as [c|]; simpl in H; [| discriminate H].
  injection H as <- _.
  split; [rewrite length_map; apply firstn_le_length |].
  split; [| split].
  - apply Forall_forall. intros x Hx. apply in_map_iff in Hx as [h [<- Hh]]. simpl.
    apply in_firstn_in, in_sort_by_score, filter_In in Hh as [_ Hle].
    apply Qle_bool_iff. exact Hle.
  - apply sorted_map. apply sorted_firstn. apply sorted_sort_by_score.
  - apply Forall_forall. intros x Hx. apply in_map_iff in Hx as [h [<- _]].
    apply payload_metadata_no_text.
Qed.

Lemma search_results_bounded_sorted_witness :
  let r := search demo_store [1; 0] (Some 0%Z) None (demo_world [] []) in
  (length (match fst r with Ok l => l | Raise _ => [] end) <= 5)%nat /\
  Forall (fun h => (7 # 10 <= sh_score h)%Q) (match fst r with Ok l => l | Raise _ => [] end) /\
  Sorted (fun a b => (sh_score b <= sh_score a)%Q) (match fst r with Ok l => l | Raise _ => [] end) /\
  Forall (fun h => dict_get (sh_metadata h) "text" = None)
    (match fst r with Ok l => l | Raise _ => [] end).
Proof.
  exact (search_results_bounded_sorted demo_store [1; 0] (Some 0%Z) None (demo_world [] [])
           (match fst (search demo_store [1; 0] (Some 0%Z) None (demo_world [] [])) with
            | Ok l => l | Raise _ => [] end)
           (snd (search demo_store [1; 0] (Some 0%Z) None (demo_world [] []))) eq_refl).
Defined.

(** X10: [retrieve_similar_ideas] is [retrieve_similar_ideas_with_scores]
    with only the texts kept: same requests, same exceptions, the hits'
    texts in the same order. *)
Theorem retrieve_similar_ideas_texts_of_scores (text : string) (tk : option Z) (thr : option Q)
  (w : World) :
  retrieve_similar_ideas text tk thr w =
  match retrieve_similar_ideas_with_scores text tk thr w with
  | (Ok hits, w') => (Ok (map sh_text hits), w')
  | (Raise e, w') => (Raise e, w')
  end.
Proof.
  unfold retrieve_similar_ideas, retrieve_similar_ideas_with_scores, search_texts, bind,
    get_settings, ret. cbv beta iota.
  destruct (get_embedding_service w) as [[[]|e] w1]; [| reflexivity].
  destruct (get_vector_store w1) as [[vs|e] w2]; [| reflexivity].
  destruct (embed_query text w2) as [[emb|e] w3]; [| reflexivity].
  destruct (search _ _ _ _ w3) as [[hits|e] w4]; reflexivity.
Qed.

(** ** What a computation leaves untouched *)

Definition keeps {T A} (f : World -> T) (m : M A) : Prop := forall w, f (snd (m w)) = f w.

(** Everything but the chat API, the retry sleeps and the files: the
    settings, Qdrant, the embedding API, the singleton and the id source. *)
Definition backend (w : World) :=
  (w_settings w, w_collections w, w_q_log w, w_voyage w, w_vector_store w, w_uuid w).

Lemma keeps_bind {T A B} (f : World -> T) (m : M A) (k : A -> M B) :
  keeps f m -> (forall a, keeps f (k a)) -> keeps f (bind m k).
Proof.
  intros Hm Hk w. unfold bind. specialize (Hm w).
  destruct (m w) as [[a|e] w1]; simpl in *; [rewrite Hk |]; exact Hm.
Qed.

Lemma keeps_catch {T A} (f : World -> T) (m : M A) (h : exn -> M A) :
  keeps f m -> (forall e, keeps f (h e)) -> keeps f (catch m h).
Proof.
  intros Hm Hh w. unfold catch. specialize (Hm w).
  destruct (m w) as [[a|e] w1]; simpl in *; [| rewrite Hh]; exact Hm.
Qed.

Lemma keeps_ret {T A} (f : World -> T) (a : A) : keeps f (ret a).
Proof. intros w. reflexivity. Qed.
Lemma keeps_raise {T A} (f : World -> T) e : keeps f (@raise A e).
Proof. intros w. reflexivity. Qed.
Lemma keeps_lift {T A} (f : World -> T) (o : outcome A) : keeps f (lift o).
Proof. intros w. reflexivity. Qed.
Lemma keeps_get_settings {T} (f : World -> T) : keeps f get_settings.
Proof. intros w. reflexivity. Qed.
Lemma keeps_read_text {T} (f : World -> T) path : keeps f (read_text path).
Proof. intros w. unfold read_text. destruct (dict_get _ _) as [[c|]|]; reflexivity. Qed.

Lemma keeps_retry_from {T A} (f : World -> T) (body : M A) :
  (forall w s, f (set_sleeps w s) = f w) -> keeps f body ->
  forall left attempt, keeps f (retry_from body attempt left).
Proof.
  intros Hs Hb left. induction left as [|left IH]; intros attempt w; simpl;
    specialize (Hb w); destruct (body w) as [[a|e] w0]; simpl in *; try exact Hb.
  rewrite IH, Hs. exact Hb.
Qed.

Create HintDb keeps.
#[local] Hint Resolve keeps_bind keeps_catch keeps_ret keeps_raise keeps_lift keeps_get_settings
  keeps_read_text : keeps.

Lemma keeps_backend_chat req : keeps backend (chat_completions_create req).
Proof. intros w. unfold chat_completions_create. destruct (w_chat w); reflexivity. Qed.

Lemma keeps_backend_run_llm sp ui t : keeps backend (run_llm sp ui t).
Proof.
  unfold run_llm, retry_stop_after_attempt. apply keeps_retry_from; [reflexivity |].
  unfold run_llm_body. apply keeps_bind; [apply keeps_get_settings |].
  intros s. apply keeps_catch; [apply keeps_backend_chat | intros; apply keeps_raise].
Qed.

Lemma keeps_backend_run_llm_with_context sp ui c t :
  keeps backend (run_llm_with_context sp ui c t).
Proof.
  unfold run_llm_with_context, retry_stop_after_attempt. apply keeps_retry_from; [reflexivity |].
  unfold run_llm_with_context_body. apply keeps_backend_run_llm.
Qed.

Lemma keeps_backend_run_llm_structured sp ui rf : keeps backend (run_llm_structured sp ui rf).
Proof.
  unfold run_llm_structured. apply keeps_bind; [apply keeps_get_settings |].
  intros s. apply keeps_catch; [apply keeps_backend_chat | intros; apply keeps_raise].
Qed.

Lemma keeps_read_prompt {T} (f : World -> T) path : keeps f (read_prompt path).
Proof.
  unfold read_prompt. apply keeps_catch; [auto with keeps |].
  intros []; auto with keeps.
Qed.

Lemma keeps_loads {T} (f : World -> T) json_loads s : keeps f (loads json_loads s).
Proof. unfold loads. destruct (json_loads s); auto with keeps. Qed.

Lemma keeps_backend_parse_and_annotate json_loads s r :
  keeps backend (parse_and_annotate json_loads s r).
Proof.
  unfold parse_and_annotate. apply keeps_catch.
  - apply keeps_bind; [apply keeps_loads |]. auto with keeps.
  - intros []; auto with keeps.
Qed.

(** X11: [process_idea_without_memory] never reaches Qdrant, the embedding
    API, the vector-store singleton or the id source, and does not change
    the settings: only the chat API is called. *)
Theorem process_idea_without_memory_chat_only (json_loads : string -> option pyval)
  (raw : string) (w : World) :
  backend (snd (process_idea_without_memory json_loads raw w)) = backend w.
Proof.
  revert w. unfold process_idea_without_memory.
  apply keeps_bind; [apply keeps_read_prompt |].
  intros [p|]; [| apply keeps_ret].
  apply keeps_bind; [apply keeps_backend_run_llm |].
  intros s. apply keeps_catch; [apply keeps_loads | intros []; auto with keeps].
Qed.

(** X12: with the refine prompt file missing, [process_idea] and
    [process_idea_without_memory] return their configuration-error dicts
    without calling anything (the world is unchanged); that dict has no
    clean_note, so it fails the IdeaResponse check and POST /ideas/
    answers 500. *)
Theorem missing_refine_prompt_no_calls (json_loads : string -> option pyval) (raw : string)
  (store : bool) (w : World) (Hmissing : dict_get (w_files w) REFINE_PROMPT_PATH = None) :
  process_idea json_loads raw store w =
    (Ok (PDict [("error", PStr "System configuration error"); ("raw_output", PNone)]), w) /\
  process_idea_without_memory json_loads raw w =
    (Ok (PDict [("error", PStr "System configuration error")]), w) /\
  submit_idea json_loads raw store w = (HttpError 500 [], w).
Proof.
  assert (H1 : process_idea json_loads raw store w =
    (Ok (PDict [("error", PStr "System configuration error"); ("raw_output", PNone)]), w)).
  { unfold process_idea. rewrite (bind_ok _ _ w None w (read_prompt_missing _ _ Hmissing)).
    reflexivity. }
  split; [exact H1 |]. split.
  - unfold process_idea_without_memory.
    rewrite (bind_ok _ _ w None w (read_prompt_missing _ _ Hmissing)). reflexivity.
  - unfold submit_idea. rewrite H1. reflexivity.
Qed.

Lemma missing_refine_prompt_no_calls_witness :
  process_idea py_json_loads "hi" true c5_world =
    (Ok (PDict [("error", PStr "System configuration error"); ("raw_output", PNone)]), c5_world) /\
  process_idea_without_memory py_json_loads "hi" c5_world =
    (Ok (PDict [("error", PStr "System configuration error")]), c5_world) /\
  submit_idea py_json_loads "hi" true c5_world = (HttpError 500 [], c5_world).
Proof. apply missing_refine_prompt_no_calls. reflexivity. Defined.

Lemma get_embedding_service_no_key w :
  voyage_api_key (w_settings w) = EmptyString -> get_embedding_service w = (Raise EmbeddingError, w).
Proof. intros Hk. unfold get_embedding_service, get_settings, bind. simpl. now rewrite Hk. Qed.

(** X13: with an empty Voyage API key, [retrieve_similar_ideas] and
    [store_idea] raise EmbeddingError before any request (the world is
    unchanged), so POST /ideas/ (prompt present) answers 503 rag_error with
    the exception's message. *)
Theorem no_api_key_embedding_error (w : World)
  (Hkey : voyage_api_key (w_settings w) = EmptyString) :
  (forall text tk thr, retrieve_similar_ideas text tk thr w = (Raise EmbeddingError, w)) /\
  (forall text md, store_idea text md w = (Raise EmbeddingError, w)) /\
  (forall json_loads raw store p, dict_get (w_files w) REFINE_PROMPT_PATH = Some (Some p) ->
     exists msg, submit_idea json_loads raw store w =
       (HttpError 503 [("error", PStr "rag_error"); ("message", PStr msg)], w)).
Proof.
  assert (Hr : forall text tk thr, retrieve_similar_ideas text tk thr w = (Raise EmbeddingError, w)).
  { intros text tk thr. unfold retrieve_similar_ideas.
    rewrite (bind_ok get_settings _ w (w_settings w) w eq_refl).
    exact (bind_raise _ _ w EmbeddingError w (get_embedding_service_no_key w Hkey)). }
  split; [exact Hr |]. split.
  - intros text md. unfold store_idea.
    exact (bind_raise _ _ w EmbeddingError w (get_embedding_service_no_key w Hkey)).
  - intros json_loads raw store p Hp. exists (exn_str EmbeddingError). unfold submit_idea.
    rewrite (process_idea_steps json_loads raw store w p Hp).
    rewrite (bind_raise _ _ w EmbeddingError w (Hr raw None None)). reflexivity.
Qed.

Definition no_key_settings : Settings := {|
  groq_model := "llama-3.3-70b-versatile"; voyage_api_key := EmptyString;
  voyage_embedding_model := "voyage-4-large"; voyage_embedding_dim := 1024;
  qdrant_collection_name := "ideas"; rag_top_k := 5; rag_score_threshold := 7 # 10;
  llm_temperature := 3 # 10; llm_max_tokens := 1024 |}.

Definition no_key_world : World :=
  mkWorld no_key_settings [(REFINE_PROMPT_PATH, Some "Refine the note.")] [] [] [] [] true
    [demo_ideas] [] None 0 "2026-01-01T00:00:00+00:00".

Lemma no_api_key_embedding_error_witness :
  (forall text tk thr, retrieve_similar_ideas text tk thr no_key_world =
                       (Raise EmbeddingError, no_key_world)) /\
  (forall text md, store_idea text md no_key_world = (Raise EmbeddingError, no_key_world)) /\
  (forall json_loads raw store p,
     dict_get (w_files no_key_world) REFINE_PROMPT_PATH = Some (Some p) ->
     exists msg, submit_idea json_loads raw store no_key_world =
       (HttpError 503 [("error", PStr "rag_error"); ("message", PStr msg)], no_key_world)).
Proof. apply no_api_key_embedding_error. reflexivity. Defined.





(** ** What [store_idea] and [add_batch] store *)

Lemma dict_get_app {V} (l1 l2 : list (string * V)) k :
  dict_get (l1 ++ l2) k = match dict_get l1 k with Some v => Some v | None => dict_get l2 k end.
Proof.
  induction l1 as [|[k0 v0] l1 IH]; simpl; [reflexivity |].
  destruct (String.eqb k k0); [reflexivity | exact IH].
Qed.

(** [{**base, **extra}][k]: the last binding of [k] in [extra], else [base]'s. *)
Lemma dict_get_merge {V} (base extra : list (string * V)) k :
  dict_get (dict_merge base extra) k =
  match dict_get (rev extra) k with Some v => Some v | None => dict_get base k end.
Proof.
  revert base. induction extra as [|[k0 v0] extra IH]; intros base; [reflexivity |].
  unfold dict_merge. simpl fold_left. fold (dict_merge (dict_set base k0 v0) extra).
  rewrite IH. simpl rev. rewrite dict_get_app.
  destruct (dict_get (rev extra) k); [reflexivity |]. simpl.
  destruct (String.eqb k k0) eqn:E.
  - apply String.eqb_eq in E. subst. apply dict_get_set_same.
  - apply dict_get_set_other. intros ->. rewrite String.eqb_refl in E. discriminate.
Qed.

Lemma dict_get_notin {V} (l : list (string * V)) k : ~ In k (map fst l) -> dict_get l k = None.
Proof.
  induction l as [|[k0 v0] l IH]; simpl; intros Hn; [reflexivity |].
  destruct (String.eqb k k0) eqn:E.
  - apply String.eqb_eq in E. subst. exfalso. apply Hn. now left.
  - apply IH. tauto.
Qed.

Lemma dict_get_rev_nodup {V} (l : list (string * V)) k :
  NoDup (map fst l) -> dict_get (rev l) k = dict_get l k.
Proof.
  induction l as [|[k0 v0] l IH]; simpl; intros Hnd; [reflexivity |].
  inversion Hnd as [|? ? Hni Hnd']; subst.
  rewrite dict_get_app, IH by exact Hnd'. simpl.
  destruct (String.eqb k k0) eqn:E.
  - apply String.eqb_eq in E. subst. now rewrite dict_get_notin.
  - destruct (dict_get l k); reflexivity.
Qed.

Lemma in_dict_set_keys {V} (d : list (string * V)) k v x :
  In x (map fst (dict_set d k v)) -> x = k \/ In x (map fst d).
Proof.
  induction d as [|[k0 v0] d IH]; simpl.
  - intros [H|[]]. now left.
  - destruct (String.eqb k k0); simpl; [tauto |]. intros [H|H]; [tauto |].
    destruct (IH H); tauto.
Qed.

Lemma nodup_dict_set {V} (d : list (string * V)) k v :
  NoDup (map fst d) -> NoDup (map fst (dict_set d k v)).
Proof.
  induction d as [|[k0 v0] d IH]; simpl; intros Hnd.
  - constructor; [tauto | constructor].
  - inversion Hnd as [|? ? Hni Hnd']; subst.
    destruct (String.eqb k k0) eqn:E; simpl; [exact Hnd |].
    constructor; [| exact (IH Hnd')].
    intros Hi. destruct (in_dict_set_keys d k v k0 Hi) as [->|Hi']; [| contradiction].
    rewrite String.eqb_refl in E. discriminate.
Qed.

Lemma nodup_dict_merge {V} (base extra : list (string * V)) :
  NoDup (map fst base) -> NoDup (map fst (dict_merge base extra)).
Proof.
  revert base. induction extra as [|[k0 v0] extra IH]; intros base Hb; [exact Hb |].
  unfold dict_merge. simpl fold_left. apply IH. now apply nodup_dict_set.
Qed.

Lemma in_upsert_point p ps : In p (upsert_point p ps).
Proof.
  unfold upsert_point. destruct (existsb _ ps) eqn:E.
  - apply existsb_exists in E as [q [Hq Heq]]. apply in_map_iff. exists q.
    now rewrite Heq.
  - apply in_or_app. right. now left.
Qed.

Lemma ids_upsert_point p ps i :
  i = qp_id p \/ In i (map qp_id ps) -> In i (map qp_id (upsert_point p ps)).
Proof.
  unfold upsert_point. destruct (existsb _ ps) eqn:E.
  - intros [->|Hi].
    + apply in_map. apply in_map_iff. apply existsb_exists in E as [q [Hq Heq]].
      exists q. now rewrite Heq.
    + apply in_map_iff in Hi as [q [<- Hq]]. rewrite map_map. apply in_map_iff.
      exists q. split; [| exact Hq].
      destruct (String.eqb (qp_id q) (qp_id p)) eqn:Eq; [symmetry; now apply String.eqb_eq | reflexivity].
  - rewrite map_app. intros [->|Hi]; apply in_or_app; [right; now left | now left].
Qed.

Lemma ids_fold_upsert pts ps i :
  In i (map qp_id pts) \/ In i (map qp_id ps) ->
  In i (map qp_id (fold_left (fun acc p => upsert_point p acc) pts ps)).
Proof.
  revert ps. induction pts as [|p pts IH]; simpl; intros ps H; [tauto |].
  apply IH. destruct H as [[Heq|H]|H];
    [right; apply ids_upsert_point; left; now symmetry | now left | right; apply ids_upsert_point; now right].
Qed.

Lemma keeps_voyage_post {T} (f : World -> T) texts it :
  (forall w v, f (set_voyage w v) = f w) -> keeps f (voyage_post texts it).
Proof. intros Hv w. unfold voyage_post. destruct (w_voyage w); simpl; auto. Qed.

Lemma keeps_singleton_embed_document text : keeps w_vector_store (embed_document text).
Proof.
  unfold embed_document. apply keeps_bind.
  - unfold call_api, retry_stop_after_attempt. apply keeps_retry_from; [reflexivity |].
    unfold call_api_body. apply keeps_catch.
    + apply keeps_voyage_post. reflexivity.
    + intros []; auto with keeps.
  - intros [|v l]; unfold first_result; auto with keeps.
Qed.

Lemma get_vector_store_singleton w vs w1 :
  get_vector_store w = (Ok vs, w1) -> w_vector_store w1 = Some vs.
Proof.
  unfold get_vector_store. destruct (w_vector_store w) as [vs0|] eqn:E0.
  - intros Hv. injection Hv as -> <-. exact E0.
  - unfold bind. destruct (vector_store_new _ _ w) as [[vs0|e] w4]; [| discriminate].
    intros Hv. injection Hv as -> <-. reflexivity.
Qed.

Lemma bind_inv {A B} (m : M A) (k : A -> M B) w b w' :
  bind m k w = (Ok b, w') -> exists a w1, m w = (Ok a, w1) /\ k a w1 = (Ok b, w').
Proof.
  unfold bind. destruct (m w) as [[a|e] w1]; [| discriminate]. intros H. eauto.
Qed.

(** One successful [add]: the point with the returned id and the merged
    payload is in the store's collection. *)
Lemma add_stores vs emb text m w id w' :
  add vs emb text (Some m) w = (Ok id, w') ->
  w_vector_store w' = w_vector_store w /\
  exists c p, find_collection (vs_collection vs) (w_collections w') = Some c /\
    In p (qc_points c) /\ qp_id p = id /\
    qp_payload p = dict_merge [("text", PStr text); ("created_at", PStr (w_now w))] m.
Proof.
  intros H. unfold add in H.
  apply bind_inv in H as [doc_id [w1 [Hu H]]].
  apply bind_inv in H as [ca [w2 [Hn H]]].
  unfold uuid4 in Hu. injection Hu as _ <-.
  unfold now_iso in Hn. injection Hn as <- <-.
  unfold catch, bind, client_upsert, on_collection, raise, ret in H.
  cbn [w_qdrant_up w_collections w_now set_uuid mkWorld] in H.
  destruct (w_qdrant_up w); [| discriminate]. cbn [negb] in H.
  destruct (find_collection (vs_collection vs) (w_collections w)) as [c|] eqn:Hf;
    [| discriminate].
  injection H as <- <-. split; [reflexivity |].
  cbn [w_collections set_qdrant log_q mkWorld set_uuid].
  rewrite find_update_collection, Hf. cbn [option_map].
  eexists. exists {| qp_id := doc_id; qp_vector := emb;
    qp_payload := dict_merge [("text", PStr text); ("created_at", PStr (w_now w))] m |}.
  split; [reflexivity |]. split; [| split; reflexivity].
  cbn [qc_points with_points fold_left]. apply in_upsert_point.
Qed.

(** X15: a stored idea's payload keeps the caller's metadata over the
    defaults: after [store_idea text (Some md)] returns an id, the
    singleton's collection holds a point with that id whose "text" is
    md's "text" if md has one (the text argument otherwise) and whose
    "type" is md's "type" if md has one ("idea" otherwise). *)
Theorem store_idea_payload (text : string) (md : list (string * pyval)) (w : World)
  (id : string) (w' : World) (Hnd : NoDup (map fst md))
  (H : store_idea text (Some md) w = (Ok id, w')) :
  exists vs c p, w_vector_store w' = Some vs /\
    find_collection (vs_collection vs) (w_collections w') = Some c /\
    In p (qc_points c) /\ qp_id p = id /\
    dict_get (qp_payload p) "text" =
      Some (match dict_get md "text" with Some v => v | None => PStr text end) /\
    dict_get (qp_payload p) "type" =
      Some (match dict_get md "type" with Some v => v | None => PStr "idea" end).
Proof.
  unfold store_idea in H.
  apply bind_inv in H as [u [w1 [_ H]]].
  apply bind_inv in H as [vs [w2 [Hvs H]]].
  apply bind_inv in H as [emb [w3 [He H]]].
  apply bind_inv in H as [st [w4 [Hn H]]].
  unfold now_iso in Hn. injection Hn as <- <-.
  apply add_stores in H as [Hs [c [p [Hf [Hin [Hid Hp]]]]]].
  pose proof (keeps_singleton_embed_document text w2) as Hk. rewrite He in Hk. simpl in Hk.
  apply get_vector_store_singleton in Hvs.
  exists vs, c, p. split; [congruence |]. split; [exact Hf |]. split; [exact Hin |].
  split; [exact Hid |]. rewrite Hp.
  set (full := dict_merge [("type", PStr "idea"); ("stored_at", PStr (w_now w3))] md).
  assert (Hfull : NoDup (map fst full)).
  { apply nodup_dict_merge. simpl. constructor; [simpl; intros [Hc|[]]; discriminate Hc |].
    constructor; [tauto | constructor]. }
  split; rewrite dict_get_merge, (dict_get_rev_nodup _ _ Hfull); unfold full;
    rewrite dict_get_merge, (dict_get_rev_nodup _ _ Hnd);
    destruct (dict_get md _); reflexivity.
Qed.

Lemma store_idea_payload_witness :
  NoDup (map fst [("source", PStr "user_input"); ("type", PStr "note")]) /\
  exists vs c p,
    w_vector_store (snd (store_idea "hi" (Some [("source", PStr "user_input"); ("type", PStr "note")])
                          (demo_world [] [Ok [[1; 0]]]))) = Some vs /\
    find_collection (vs_collection vs)
      (w_collections (snd (store_idea "hi" (Some [("source", PStr "user_input"); ("type", PStr "note")])
                             (demo_world [] [Ok [[1; 0]]])))) = Some c /\
    In p (qc_points c) /\ qp_id p = "uuid-0" /\
    dict_get (qp_payload p) "text" =
      Some (match dict_get [("source", PStr "user_input"); ("type", PStr "note")] "text" with
            | Some v => v | None => PStr "hi" end) /\
    dict_get (qp_payload p) "type" =
      Some (match dict_get [("source", PStr "user_input"); ("type", PStr "note")] "type" with
            | Some v => v | None => PStr "idea" end).
Proof.
  split; [repeat constructor; simpl; intuition discriminate |].
  apply (store_idea_payload "hi" [("source", PStr "user_input"); ("type", PStr "note")]
           (demo_world [] [Ok [[1; 0]]]) "uuid-0").
  - repeat constructor; simpl; intuition discriminate.
  - vm_compute. reflexivity.
Defined.

Lemma length_zip3 {A B C} (a : list A) (b : list B) (c : list C) :
  length (zip3 a b c) = Nat.min (length a) (Nat.min (length b) (length c)).
Proof.
  revert b c. induction a as [|x a IH]; intros [|y b] [|z c]; simpl; try reflexivity;
    try rewrite IH; lia.
Qed.

(** [batch_points] never fails; the ids it returns are those of its points,
    one per item. *)
Lemma batch_points_ok items w :
  exists r w', batch_points items w = (Ok r, w') /\ fst r = map qp_id (snd r) /\
               length (snd r) = length items.
Proof.
  revert w. induction items as [|[[e t] md] items IH]; intros w.
  - exists ([], []), w. repeat split.
  - simpl. unfold bind at 1. unfold uuid4 at 1. cbv beta iota.
    unfold bind at 1, now_iso at 1. cbv beta iota.
    destruct (IH (set_uuid w (S (w_uuid w)))) as [r [w' [Hb [Hi Hl]]]].
    unfold bind. simpl fst. simpl snd. rewrite Hb. unfold ret.
    eexists; exists w'. split; [reflexivity |]. simpl. rewrite Hi, Hl. split; reflexivity.
Qed.

(** X16: [add_batch] raises VectorStoreError, touching nothing, when there
    are not as many embeddings as texts, and raises nothing else. When it
    returns, it returns one id per [zip(embeddings, texts, metadata_list)]
    entry (as many as the texts without a metadata list, or with an empty
    one; the shorter of the two lists otherwise), and every returned id is
    the id of a point of the store's collection. *)
Theorem add_batch_outcome (self : VectorStore) (embs : list (list Q)) (texts : list string)
  (ml : option (list (list (string * pyval)))) (w : World) :
  (length embs <> length texts -> add_batch self embs texts ml w = (Raise VectorStoreError, w)) /\
  (forall e w', add_batch self embs texts ml w = (Raise e, w') -> e = VectorStoreError) /\
  (forall ids w', add_batch self embs texts ml w = (Ok ids, w') ->
     length ids = match ml with
                  | Some ((_ :: _) as m) => Nat.min (length texts) (length m)
                  | _ => length texts
                  end /\
     exists c, find_collection (vs_collection self) (w_collections w') = Some c /\
       forall i, In i ids -> In i (map qp_id (qc_points c))).
Proof.
  unfold add_batch. destruct (Nat.eqb_spec (length embs) (length texts)) as [Heq|Hne];
    cbn [negb].
  - split; [contradiction |].
    remember (zip3 embs texts _) as items eqn:Hitems.
    destruct (batch_points_ok items w) as [r [w1 [Hb [Hi Hl]]]].
    unfold catch, bind, client_upsert, on_collection, raise, ret. rewrite Hb.
    destruct (w_qdrant_up w1) eqn:Hup; simpl;
      [| split; [intros e w' H; injection H; auto | intros ids w' H; discriminate H]].
    destruct (find_collection (vs_collection self) (w_collections w1)) as [c|] eqn:Hf; simpl;
      [| split; [intros e w' H; injection H; auto | intros ids w' H; discriminate H]].
    split; [intros e w' H; discriminate H |].
    intros ids w' H. injection H as <- <-. split.
    + rewrite Hi, length_map, Hl, Hitems, length_zip3.
      destruct ml as [[|m0 m]|]; simpl; rewrite ?length_map; lia.
    + cbn [w_collections set_qdrant log_q mkWorld]. rewrite find_update_collection, Hf. eexists. split; [reflexivity |].
      intros i Hin. cbn [qc_points with_points]. apply ids_fold_upsert. left. now rewrite <- Hi.
  - split; [reflexivity |]. split; [intros e w' H; injection H; auto | intros ids w' H; discriminate H].
Qed.

(** ** Qdrant writes of [process_idea] *)

Definition is_upsert (ev : QEvent) : bool :=
  match ev with QUpsert _ _ => true | _ => false end.

Definition no_upsert (s : Settings) (ev : QEvent) : Prop := is_upsert ev = false.

Lemma backend_keeps_log {A} (m : M A) : keeps backend m -> logs_only no_upsert m.
Proof.
  intros Hk w ev H. left. specialize (Hk w). unfold backend in Hk.
  injection Hk as _ _ Hl _ _ _. now rewrite Hl in H.
Qed.

Lemma backend_keeps_settings {A} (m : M A) : keeps backend m -> preserves_settings m.
Proof.
  intros Hk w. specialize (Hk w). unfold backend in Hk. now injection Hk as Hs _ _ _ _ _.
Qed.

(** Building the vector store sends only GET collections and
    create-collection requests. *)
Section StoreInit.
Variable P : Settings -> QEvent -> Prop.
Hypothesis P_get : forall s, P s QGetCollections.
Hypothesis P_create : forall s n sz d, P s (QCreateCollection n sz d).

Lemma init_get_collections : logs_only P client_get_collections.
Proof.
  intros w ev. unfold client_get_collections.
  destruct (w_qdrant_up w); simpl; intros [<- | H]; (right; apply P_get) || (now left).
Qed.

Lemma init_create_collection n sz d : logs_only P (client_create_collection n sz d).
Proof.
  intros w ev. unfold client_create_collection.
  destruct (w_qdrant_up w); simpl; [destruct (find_collection n (w_collections w)) |];
    simpl; intros [<- | H]; (right; apply P_create) || (now left).
Qed.

Lemma init_ensure_collection vs : logs_only P (ensure_collection vs).
Proof.
  unfold ensure_collection.
  apply logs_only_catch; [| | intros; apply logs_only_raise].
  - apply preserves_bind; [apply preserves_get_collections |].
    intros names. destruct (existsb _ names); auto with qlog.
  - apply logs_only_bind; [apply preserves_get_collections | apply init_get_collections |].
    intros names. destruct (existsb _ names); [apply logs_only_ret | apply init_create_collection].
Qed.

Lemma init_get_vector_store : logs_only P get_vector_store.
Proof.
  intros w ev. unfold get_vector_store. destruct (w_vector_store w); [now left |].
  refine (logs_only_bind _ _ _ (preserves_vector_store_new _ _) _ _ w ev).
  - unfold vector_store_new.
    apply logs_only_bind; [apply preserves_get_settings | apply logs_only_get_settings |].
    intros s. apply logs_only_bind;
      [apply preserves_ensure_collection | apply init_ensure_collection |].
    intros; apply logs_only_ret.
  - intros vs w1 ev' H. now left.
Qed.
End StoreInit.

Lemma no_upsert_retrieve text tk thr : logs_only no_upsert (retrieve_similar_ideas text tk thr).
Proof.
  unfold retrieve_similar_ideas.
  apply logs_only_bind; [apply preserves_get_settings | apply logs_only_get_settings |].
  intros s. apply logs_only_bind;
    [apply preserves_get_embedding_service | apply logs_only_get_embedding_service |].
  intros _. apply logs_only_bind;
    [apply preserves_get_vector_store | apply init_get_vector_store; reflexivity |].
  intros vs. apply logs_only_bind; [apply preserves_embed_query | apply logs_only_embed_query |].
  intros emb. apply (logs_only_weaken (search_event vs (Some (or_int tk (rag_top_k s)))
                                        (Some (or_float thr (rag_score_threshold s)))));
    [| apply logs_only_search_texts].
  intros s' ev ->. reflexivity.
Qed.

Lemma preserves_retrieve text tk thr : preserves_settings (retrieve_similar_ideas text tk thr).
Proof.
  unfold retrieve_similar_ideas. apply preserves_bind; [apply preserves_get_settings |].
  intros s. apply preserves_bind; [apply preserves_get_embedding_service |].
  intros _. apply preserves_bind; [apply preserves_get_vector_store |].
  intros vs. apply preserves_bind; [apply preserves_embed_query |].
  intros emb. unfold search_texts. apply preserves_bind; [apply preserves_search |].
  intros; apply preserves_ret.
Qed.

(** X17: with [store_in_memory] false, [process_idea] sends no upsert to
    Qdrant: every Qdrant request it adds is a read (GET collections,
    query), or the creation of the missing collection. *)
Theorem process_idea_no_store_no_upsert (json_loads : string -> option pyval) (raw : string)
  (w : World) (ev : QEvent)
  (Hin : In ev (w_q_log (snd (process_idea json_loads raw false w)))) :
  In ev (w_q_log w) \/ is_upsert ev = false.
Proof.
  revert w ev Hin. change (logs_only no_upsert (process_idea json_loads raw false)).
  unfold process_idea.
  apply logs_only_bind;
    [apply backend_keeps_settings, keeps_read_prompt | apply backend_keeps_log, keeps_read_prompt |].
  intros [p|]; [| apply logs_only_ret].
  apply logs_only_bind; [apply preserves_retrieve | apply no_upsert_retrieve |].
  intros related.
  apply logs_only_bind; [apply backend_keeps_settings, keeps_backend_run_llm_with_context
                        | apply backend_keeps_log, keeps_backend_run_llm_with_context |].
  intros out. unfold memory_write.
  apply logs_only_bind; [apply preserves_ret | apply logs_only_ret |].
  intros _. apply backend_keeps_log, keeps_backend_parse_and_annotate.
Qed.

Definition no_store_world : World := demo_world [Ok demo_note_json] [Ok [[1; 0]]].

Lemma process_idea_no_store_no_upsert_witness :
  In QGetCollections (w_q_log (snd (process_idea py_json_loads "hi" false no_store_world))) /\
  (In QGetCollections (w_q_log no_store_world) \/ is_upsert QGetCollections = false).
Proof.
  split.
  - vm_compute. repeat first [left; reflexivity | right].
  - apply (process_idea_no_store_no_upsert py_json_loads "hi" no_store_world QGetCollections). vm_compute. repeat first [left; reflexivity | right].
Defined.

(** ** Attempts of [run_llm] *)

Lemma retry_from_count (count : World -> nat) {A} (f : M A) k :
  (forall w s, count (set_sleeps w s) = count w) ->
  (forall w, count (snd (f w)) <= count w + k)%nat ->
  forall left attempt w, (count (snd (retry_from f attempt left w)) <= count w + S left * k)%nat.
Proof.
  intros Hs Hf left. induction left as [|left IH]; intros attempt w; simpl;
    specialize (Hf w); destruct (f w) as [[a|e] w0]; simpl in *; try lia.
  specialize (IH (S attempt) (set_sleeps w0 (wait_exponential 1 10 attempt :: w_sleeps w0))).
  rewrite Hs in IH. lia.
Qed.

Lemma run_llm_body_count sp ui t w :
  (length (w_chat_log (snd (run_llm_body sp ui t w))) <= length (w_chat_log w) + 1)%nat.
Proof.
  unfold run_llm_body, get_settings, bind, catch, chat_completions_create, raise.
  simpl. destruct (w_chat w) as [|[r|e] rest]; simpl; lia.
Qed.

Lemma run_llm_count sp ui t w :
  (length (w_chat_log (snd (run_llm sp ui t w))) <= length (w_chat_log w) + 3)%nat.
Proof.
  unfold run_llm, retry_stop_after_attempt.
  pose proof (retry_from_count (fun w => length (w_chat_log w)) (run_llm_body sp ui t) 1
                (fun w s => eq_refl) (run_llm_body_count sp ui t) 2 1 w). simpl in *. lia.
Qed.

(** X18: [run_llm] makes at most 3 [client.chat.completions.create] calls
    and [run_llm_with_context] at most 9 (its own 3 attempts, each a full
    [run_llm]); when one of the first three calls succeeds, [run_llm]
    returns the first success, after exactly one call per reply consumed.
    These count [create] calls: inside each one the OpenAI client may
    retry over HTTP (max_retries=2 by default), so up to three times as
    many HTTP requests can go out. *)
Theorem run_llm_attempts (sp ui : string) (t : option Q) (c : option (list string)) (w : World) :
  (length (w_chat_log (snd (run_llm sp ui t w))) <= length (w_chat_log w) + 3)%nat /\
  (length (w_chat_log (snd (run_llm_with_context sp ui c t w))) <= length (w_chat_log w) + 9)%nat /\
  (forall es s rest, (length es < 3)%nat -> w_chat w = (map Raise es ++ Ok s :: rest)%list ->
     fst (run_llm sp ui t w) = Ok s /\
     length (w_chat_log (snd (run_llm sp ui t w))) = (length (w_chat_log w) + length es + 1)%nat).
Proof.
  split; [apply run_llm_count |]. split.
  - unfold run_llm_with_context, retry_stop_after_attempt.
    pose proof (retry_from_count (fun w => length (w_chat_log w))
                  (run_llm_with_context_body sp ui c t) 3 (fun w s => eq_refl)
                  (fun w => run_llm_count _ ui t w) 2 1 w). simpl in *. lia.
  - intros es s rest Hlen Hw.
    destruct es as [|e1 [|e2 [|e3 es]]]; simpl in Hlen; try lia; simpl in Hw;
      unfold run_llm, retry_stop_after_attempt, run_llm_body, get_settings, bind, catch,
        chat_completions_create, raise; simpl; rewrite Hw; simpl; split; (reflexivity || lia).
Qed.

(** ** Tasks with an empty context, and prompt templates *)

Lemma bind_ext {A B} (m : M A) (k1 k2 : A -> M B) w :
  (forall a w1, k1 a w1 = k2 a w1) -> bind m k1 w = bind m k2 w.
Proof. intros Hk. unfold bind. destruct (m w) as [[a|e] w1]; [apply Hk | reflexivity]. Qed.

(** X19: [extract_tasks_with_context] without a context, or with an empty
    one, behaves exactly as [extract_tasks]: same result, same requests. *)
Theorem extract_tasks_with_context_no_context (json_loads : string -> option pyval)
  (thought : string) (w : World) :
  extract_tasks_with_context json_loads thought None w = extract_tasks json_loads thought w /\
  extract_tasks_with_context json_loads thought (Some []) w = extract_tasks json_loads thought w.
Proof.
  split; unfold extract_tasks_with_context, extract_tasks; apply bind_ext;
    intros [p|] w1; [| reflexivity | | reflexivity]; cbv beta iota zeta; unfold catch;
    destruct (bind _ _ w1) as [[v|[]] w2]; reflexivity.
Qed.

(** Python's [old in s] on strings. *)
Fixpoint py_str_contains (old s : string) : bool :=
  match s with
  | EmptyString => String.prefix old EmptyString
  | String c s' => String.prefix old s || py_str_contains old s'
  end.

Lemma str_replace_fuel_absent fuel s old new :
  py_str_contains old s = false -> str_replace_fuel fuel s old new = s.
Proof.
  revert s. induction fuel as [|fuel IH]; intros s Hs; [reflexivity |].
  destruct s as [|c s']; [reflexivity |]. simpl in Hs.
  apply orb_false_iff in Hs as [Hp Hs]. simpl. rewrite Hp. now rewrite IH.
Qed.

(** X20: [load_prompt] returns a template verbatim when none of the
    [{{ key }}] placeholders of its keyword arguments occurs in it (so a
    single-brace placeholder such as {thought} is left as it is). *)
Theorem load_prompt_verbatim (prompt_file : string) (kwargs : list (string * string))
  (w : World) (content : string)
  (Hc : dict_get (w_files w) prompt_file = Some (Some content))
  (Hno : Forall (fun kv => py_str_contains ("{{ " ++ fst kv ++ " }}") content = false) kwargs) :
  load_prompt prompt_file kwargs w = (Ok content, w).
Proof.
  unfold load_prompt, catch, bind, read_text, ret. rewrite Hc. f_equal. f_equal.
  induction Hno as [|kv kwargs Hkv Hno IH]; [reflexivity |]. simpl.
  unfold str_replace. rewrite (str_replace_fuel_absent _ _ _ _ Hkv). exact IH.
Qed.

Lemma load_prompt_verbatim_witness :
  load_prompt TASK_PROMPT_PATH [("thought", "buy milk")] (demo_world [] []) =
    (Ok "Extract tasks: {thought}", demo_world [] []).
Proof.
  apply load_prompt_verbatim; [reflexivity |]. repeat constructor.
Defined.

(** ** What POST /ideas/ answers with 200 *)

(** X21: a 200 answer of POST /ideas/ is never an error dict: it comes from
    a dict returned by [process_idea] with a string clean_note, and its
    body has exactly the five IdeaResponse fields; a returned dict without
    clean_note (the configuration-error and invalid-JSON dicts) is
    answered 500.  Every other answer is a 503 or a 500. *)
Theorem submit_idea_ok_is_idea_response (json_loads : string -> option pyval) (raw : string)
  (store : bool) (w : World) :
  match fst (submit_idea json_loads raw store w) with
  | HttpOk body =>
      exists d note, fst (process_idea json_loads raw store w) = Ok (PDict d) /\
        dict_get d "clean_note" = Some (PStr note) /\
        exists themes tasks cu rc,
          body = PDict [("clean_note", PStr note); ("themes", themes); ("suggested_tasks", tasks);
                        ("context_used", cu); ("related_ideas_count", rc)]
  | HttpError code _ => code = 500%Z \/ code = 503%Z
  end /\
  (forall d w', process_idea json_loads raw store w = (Ok (PDict d), w') ->
     dict_get d "clean_note" = None -> submit_idea json_loads raw store w = (HttpError 500 [], w')).
Proof.
  split.
  - unfold submit_idea. destruct (process_idea json_loads raw store w) as [[r|e] w'].
    + destruct (idea_response r) as [body|] eqn:E; simpl; [| now left].
      destruct r as [| | | | | |d]; try discriminate E. simpl in E.
      destruct (dict_get d "clean_note") as [[| | | |note| |]|] eqn:Hc; try discriminate E.
      destruct (list_field str_item (dict_get d "themes")) as [th|]; try discriminate E.
      destruct (list_field task_item (dict_get d "suggested_tasks")) as [ts|]; try discriminate E.
      destruct (bool_field (dict_get d "context_used")) as [cu|]; try discriminate E.
      destruct (int_field (dict_get d "related_ideas_count")) as [rc|]; try discriminate E.
      injection E as <-. exists d, note. split; [reflexivity |]. split; [exact Hc |].
      exists th, ts, cu, rc. reflexivity.
    + simpl. destruct (is_rag_exception e); simpl; auto.
  - intros d w' H Hn. unfold submit_idea. rewrite H. simpl. rewrite Hn. reflexivity.
Qed.
